(** * qdoc manifest writer: a shallow embedding of [src/qdoc/manifestwriter.cpp]

    The development follows the source file top to bottom: the string and
    container primitives of Qt that the writer calls, the free functions
    ([getFilesToOpen], [writeFilesToOpen], ...), then the members of
    [ManifestWriter] as functions over an explicit writer state.

    Strings are sequences of 8-bit code units read as Latin-1
    (U+0000..U+00FF); a [QXmlStreamWriter] is the sequence of tokens it
    has been asked to write. *)

From Stdlib Require Import ZArith Ascii Sorted.
From stdpp Require Import base option list sorting strings gmap.

Set Warnings "-clear-no-such-hyp".

(** ** Qt string primitives *)

Module QString.

Definition code (c : ascii) : nat := nat_of_ascii c.

Definition isUpperAZ (c : ascii) : bool :=
  (65 <=? code c)%nat && (code c <=? 90)%nat.

Definition isLowerAZ (c : ascii) : bool :=
  (97 <=? code c)%nat && (code c <=? 122)%nat.

(** [QChar::isDigit]: decimal digits; the only ones below U+0100 are
    '0'..'9'. *)
Definition isDigit (c : ascii) : bool :=
  (48 <=? code c)%nat && (code c <=? 57)%nat.

(** [QChar::toLower] on Latin-1: A..Z and U+00C0..U+00DE (but not the
    multiplication sign U+00D7) move up by 0x20. *)
Definition toLowerChar (c : ascii) : ascii :=
  if isUpperAZ c
     || ((192 <=? code c)%nat && (code c <=? 222)%nat
         && negb (code c =? 215)%nat)
  then ascii_of_nat (code c + 32) else c.

Fixpoint toLower (s : string) : string :=
  match s with
  | EmptyString => EmptyString
  | String c s' => String (toLowerChar c) (toLower s')
  end.

Definition startsWith (s p : string) : bool := String.prefix p s.

Definition endsWith (s p : string) : bool :=
  String.prefix (String.rev p) (String.rev s).

(** [compare(other, Qt::CaseInsensitive) == 0]. *)
Definition equalsCaseInsensitive (s t : string) : bool :=
  String.eqb (toLower s) (toLower t).

(** [indexOf(ch)]: position of the first occurrence, -1 when absent. *)
Fixpoint indexOf (ch : ascii) (s : string) : Z :=
  match s with
  | EmptyString => -1
  | String c s' =>
      if Ascii.eqb c ch then 0
      else let i := indexOf ch s' in if (i <? 0)%Z then -1 else (i + 1)%Z
  end.

(** [lastIndexOf(ch)]: position of the last occurrence, -1 when absent. *)
Fixpoint lastIndexOf (ch : ascii) (s : string) : Z :=
  match s with
  | EmptyString => -1
  | String c s' =>
      let i := lastIndexOf ch s' in
      if (0 <=? i)%Z then (i + 1)%Z
      else if Ascii.eqb c ch then 0 else -1
  end.

(** [contains(ch)]. *)
Fixpoint contains (ch : ascii) (s : string) : bool :=
  match s with
  | EmptyString => false
  | String c s' => Ascii.eqb c ch || contains ch s'
  end.

Fixpoint take (n : nat) (s : string) : string :=
  match n, s with
  | S n', String c s' => String c (take n' s')
  | _, _ => EmptyString
  end.

Fixpoint skip (n : nat) (s : string) : string :=
  match n, s with
  | S n', String _ s' => skip n' s'
  | _, _ => s
  end.

(** [left(n)]: the whole string when [n] is negative or too large. *)
Definition left (n : Z) (s : string) : string :=
  if (n <? 0)%Z then s else take (Z.to_nat n) s.

(** [mid(position)] with the length defaulted: the rest of the string. *)
Definition mid (position : Z) (s : string) : string :=
  skip (Z.to_nat position) s.

(** [chop(n)]: drop [n] characters from the end (all of them when the
    string is shorter). *)
Definition chop (n : nat) (s : string) : string :=
  take (String.length s - n) s.

(** [remove(0, 1)]. *)
Definition removeFirst (s : string) : string := skip 1 s.

(** [at(0)].  Qt requires a valid position; on the empty string the
    release build reads the terminating NUL, which is what [zero]
    stands for here. *)
Definition at0 (s : string) : ascii :=
  match s with
  | EmptyString => zero
  | String c _ => c
  end.

(** [split(sep)] with the default [Qt::KeepEmptyParts]: the empty
    string splits into one empty part. *)
Fixpoint split_go (sep : ascii) (cur : string) (s : string) : list string :=
  match s with
  | EmptyString => [String.rev cur]
  | String c s' =>
      if Ascii.eqb c sep then String.rev cur :: split_go sep EmptyString s'
      else split_go sep (String c cur) s'
  end.

Definition split (sep : ascii) (s : string) : list string :=
  split_go sep EmptyString s.

(** [QStringList::join(sep)]. *)
Fixpoint join (sep : ascii) (l : list string) : string :=
  match l with
  | [] => EmptyString
  | [x] => x
  | x :: l' => x +:+ String sep (join sep l')
  end.

End QString.

(** [QFileInfo] on a path with '/' separators. *)
Module QFileInfo.

(** The name of the file, excluding the path. *)
Definition fileName (file : string) : string :=
  QString.mid (QString.lastIndexOf "/"%char file + 1) file.

(** All characters of the file name up to, not including, the first
    '.'. *)
Definition baseName (file : string) : string :=
  let name := fileName file in
  QString.left (QString.indexOf "."%char name) name.

End QFileInfo.

(** [QMap<int, T>]: the entries in increasing key order, one per key. *)
Module QMap.
Section Ops.
Context {T : Type}.

Definition t : Type := list (Z * T).

(** [insert(key, value)]: replaces the value of an existing key. *)
Fixpoint insert (key : Z) (value : T) (m : t) : t :=
  match m with
  | [] => [(key, value)]
  | (k, v) :: m' =>
      if (key <? k)%Z then (key, value) :: m
      else if (key =? k)%Z then (key, value) :: m'
      else (k, v) :: insert key value m'
  end.

Fixpoint value (key : Z) (m : t) : option T :=
  match m with
  | [] => None
  | (k, v) :: m' => if (key =? k)%Z then Some v else value key m'
  end.

Definition keys (m : t) : list Z := m.*1.

(** The representation invariant: keys strictly increase. *)
Definition wf (m : t) : Prop := StronglySorted Z.lt (keys m).
End Ops.
Arguments t : clear implicits.
End QMap.

(** ** The XML stream writer, as the sequence of tokens written *)

Inductive XmlToken : Type :=
| StartDocument
| EndDocument
| StartElement (qualifiedName : string)
| EndElement
| Attribute (qualifiedName value : string)
| Characters (text : string)
| CDATA (text : string).

Global Instance XmlToken_eq_dec : EqDecision XmlToken.
Proof. solve_decision. Defined.

Definition QXmlStreamWriter : Type := list XmlToken.

Definition writeToken (tok : XmlToken) (writer : QXmlStreamWriter)
  : QXmlStreamWriter := writer ++ [tok].

Definition writeStartDocument := writeToken StartDocument.
Definition writeEndDocument := writeToken EndDocument.
Definition writeStartElement (n : string) := writeToken (StartElement n).
Definition writeEndElement := writeToken EndElement.
Definition writeAttribute (n v : string) := writeToken (Attribute n v).
Definition writeCharacters (text : string) := writeToken (Characters text).
Definition writeCDATA (text : string) := writeToken (CDATA text).

(** ** The documentation graph, as far as the writer reads it *)

(** [QStringMultiMap]: the entries in the map's iteration order (by key,
    and among equal keys the most recently inserted first). *)
Definition QStringMultiMap : Type := list (string * string).

(** [value(key)]: the most recent value of the key, or a
    default-constructed string. *)
Fixpoint multiMapValue (key : string) (m : QStringMultiMap) : string :=
  match m with
  | [] => ""
  | (k, v) :: m' => if String.eqb k key then v else multiMapValue key m'
  end.

(** [values(key)]: every value of the key. *)
Definition multiMapValues (key : string) (m : QStringMultiMap) : list string :=
  (filter (fun kv => String.eqb kv.1 key = true) m).*2.

Record ExampleNode : Type := {
  name : string;
  title : string;
  projectFile : string;
  imageFileName : string;
  files : list string;
  briefText : string;                      (* doc().briefText() *)
  metaTagMap : option QStringMultiMap;     (* doc().metaTagMap(), may be null *)
}.

(** A section of the [manifestmeta] configuration.  [names] and
    [attributes] are [QSet]s: the lists stand for the sets in the order
    in which the range-for visits them. *)
Record ManifestMetaFilter : Type := {
  names : list string;
  attributes : list string;
  tags : gset string;
}.

Record ManifestWriter : Type := {
  m_tags : gset string;
  m_manifestDir : string;
  m_examplesPath : string;
  m_outputDirectory : string;
  m_project : string;
  m_manifestMetaContent : list ManifestMetaFilter;
  exampleNodeMap : list ExampleNode;       (* m_qdb->exampleNodeMap().values() *)
}.

Definition set_m_tags (self : ManifestWriter) (ts : gset string)
  : ManifestWriter :=
  {| m_tags := ts;
     m_manifestDir := m_manifestDir self;
     m_examplesPath := m_examplesPath self;
     m_outputDirectory := m_outputDirectory self;
     m_project := m_project self;
     m_manifestMetaContent := m_manifestMetaContent self;
     exampleNodeMap := exampleNodeMap self |}.

(** ** Free functions *)

(** One warning per attribute of [attributesToWarnFor] that is not in
    [usedAttributes]; the result lists the messages issued. *)
Definition warnAboutUnusedAttributes (usedAttributes : list string)
    (name : string) : list string :=
  let attributesToWarnFor := ["imageUrl"; "projectPath"] in
  omap (fun attribute =>
          if bool_decide (attribute ∈ usedAttributes) then None
          else Some (name +:+ ": missing attribute " +:+ attribute))
       attributesToWarnFor.

Definition writeDescription (writer : QXmlStreamWriter)
    (example : ExampleNode) : QXmlStreamWriter :=
  let writer := writeStartElement "description" writer in
  let brief := briefText example in
  let writer :=
    if negb (String.eqb brief "") then writeCDATA brief writer
    else writeCDATA "No description available" writer in
  writeEndElement writer.

Definition getFilesToOpen_step (exampleName : string)
    (filesToOpen : QMap.t string) (file : string) : QMap.t string :=
  let fileName := QString.toLower (QFileInfo.fileName file) in
  if QString.equalsCaseInsensitive (QFileInfo.baseName file) exampleName then
    if QString.endsWith fileName ".qml" then QMap.insert 0 file filesToOpen
    else if QString.endsWith fileName ".cpp" then QMap.insert 1 file filesToOpen
    else if QString.endsWith fileName ".h" then QMap.insert 2 file filesToOpen
    else filesToOpen
  else if QString.endsWith fileName "main.qml" then
    QMap.insert 3 file filesToOpen
  else if QString.endsWith fileName "main.cpp" then
    QMap.insert 4 file filesToOpen
  else filesToOpen.

Definition getFilesToOpen (files : list string) (exampleName : string)
  : QMap.t string :=
  foldl (getFilesToOpen_step exampleName) [] files.

(** The loop of [writeFilesToOpen]; the iterator is its distance [it]
    from [constBegin()], so [constEnd()] is the number of entries. *)
Fixpoint writeFilesToOpen_from (it : nat) (writer : QXmlStreamWriter)
    (installPath : string) (filesToOpen : QMap.t string) : QXmlStreamWriter :=
  match it with
  | O => writer
  | S it' =>
      let writer := writeStartElement "fileToOpen" writer in
      let writer :=
        if (it' =? 0)%nat then writeAttribute "mainFile" "true" writer
        else writer in
      let writer :=
        writeCharacters (installPath +:+ (nth it' filesToOpen (0%Z, "")).2)
                        writer in
      let writer := writeEndElement writer in
      writeFilesToOpen_from it' writer installPath filesToOpen
  end.

Definition writeFilesToOpen (writer : QXmlStreamWriter) (installPath : string)
    (filesToOpen : QMap.t string) : QXmlStreamWriter :=
  writeFilesToOpen_from (length filesToOpen) writer installPath filesToOpen.

(** ** Regular expressions, as far as the writer uses them

    A backtracking matcher in continuation-passing style: alternatives
    are tried left to right, repetitions and options are greedy and give
    characters back only when the rest of the pattern fails, and the
    first success is the match. *)
Module QRegularExpression.

Inductive pattern : Type :=
| Lit (s : string)                          (* 3D *)
| Star (cls : ascii -> bool)                (* [..]* *)
| Plus (cls : ascii -> bool)                (* [..]+ *)
| Alt (a b : pattern)                       (* a|b *)
| Opt (a : pattern)                         (* a? *)
| Seq (a b : pattern).                      (* ab *)

Fixpoint star (cls : ascii -> bool) (s : string)
    (k : string -> option string) : option string :=
  match s with
  | String c s' =>
      if cls c then
        match star cls s' k with
        | Some rest => Some rest
        | None => k s
        end
      else k s
  | EmptyString => k s
  end.

(** [run p s k]: match [p] at the start of [s], then continue with [k]
    on what is left; the result is what the whole match leaves. *)
Fixpoint run (p : pattern) (s : string)
    (k : string -> option string) : option string :=
  match p with
  | Lit l =>
      if String.prefix l s then k (QString.skip (String.length l) s)
      else None
  | Star cls => star cls s k
  | Plus cls =>
      match s with
      | String c s' => if cls c then star cls s' k else None
      | EmptyString => None
      end
  | Alt a b =>
      match run a s k with
      | Some rest => Some rest
      | None => run b s k
      end
  | Opt a =>
      match run a s k with
      | Some rest => Some rest
      | None => k s
      end
  | Seq a b => run a s (fun s' => run b s' k)
  end.

(** The leftmost position, from [offset] on, at which the pattern
    matches; [s] is the subject from [offset].  The result is
    (capturedStart, capturedEnd). *)
Fixpoint search (p : pattern) (s : string) (offset : nat)
  : option (nat * nat) :=
  match run p s Some with
  | Some rest => Some (offset, offset + (String.length s - String.length rest))
  | None =>
      match s with
      | EmptyString => None
      | String _ s' => search p s' (S offset)
      end
  end.

(** [re.match(subject, offset)]. *)
Definition match_ (p : pattern) (subject : string) (offset : nat)
  : option (nat * nat) :=
  if (offset <=? String.length subject)%nat
  then search p (QString.skip offset subject) offset
  else None.

(** The text between two positions of the subject. *)
Definition captured (subject : string) (range : nat * nat) : string :=
  QString.take (range.2 - range.1) (QString.skip range.1 subject).

End QRegularExpression.

(** ** Members of [ManifestWriter] *)

(** The configuration values the constructor reads; the filters are
    what [readManifestMetaContent] collects, in the order of
    [manifestmeta.filters]. *)
Record Config : Type := {
  project : string;
  outputDir : string;
  qhpNamespace : string;
  qhpVirtualFolder : string;
  examplesInstallPath : string;
  manifestMetaFilters : list ManifestMetaFilter;
}.

(** [ManifestWriter::ManifestWriter()], for a configuration and the
    examples of the database. *)
Definition newManifestWriter (config : Config) (examples : list ExampleNode)
  : ManifestWriter :=
  let m_manifestDir := "qthelp://" +:+ qhpNamespace config in
  let m_manifestDir := m_manifestDir +:+ "/" +:+ qhpVirtualFolder config +:+ "/" in
  let m_examplesPath := examplesInstallPath config in
  let m_examplesPath :=
    if negb (String.eqb m_examplesPath "") then m_examplesPath +:+ "/"
    else m_examplesPath in
  {| m_tags := ∅;
     m_manifestDir := m_manifestDir;
     m_examplesPath := m_examplesPath;
     m_outputDirectory := outputDir config;
     m_project := project config;
     m_manifestMetaContent := manifestMetaFilters config;
     exampleNodeMap := examples |}.

(** The three ways a filter name is compared with the full name of an
    example ([switch (wildcard)]). *)
Definition nameMatches (name fullName : string) : bool :=
  let wildcard := QString.indexOf "*"%char name in
  match wildcard with
  | (-1)%Z => String.eqb fullName name
  | 0%Z => true
  | _ => QString.startsWith fullName (QString.left wildcard name)
  end.

(** [attribute.split(':')], a default value, [takeFirst] and [join]. *)
Definition attrList (attribute : string) : list string :=
  let attrList := QString.split ":"%char attribute in
  if (length attrList =? 1)%nat then attrList ++ ["true"] else attrList.

Definition attrName (attribute : string) : string :=
  hd "" (attrList attribute).

Definition attrValue (attribute : string) : string :=
  QString.join ":"%char (tl (attrList attribute)).

(** The state the filter loop works on: the writer object, the
    attributes used so far and the token stream. *)
Definition MetaState : Type :=
  (ManifestWriter * list string * QXmlStreamWriter)%type.

Definition writeFilterAttribute (st : list string * QXmlStreamWriter)
    (attribute : string) : list string * QXmlStreamWriter :=
  let '(usedAttributes, writer) := st in
  let attrName := attrName attribute in
  if negb (bool_decide (attrName ∈ usedAttributes)) then
    (usedAttributes ++ [attrName],
     writeAttribute attrName (attrValue attribute) writer)
  else (usedAttributes, writer).

Definition applyFilterName (fullName : string) (index : ManifestMetaFilter)
    (st : MetaState) (name : string) : MetaState :=
  let '(self, usedAttributes, writer) := st in
  if nameMatches name fullName then
    let self := set_m_tags self (m_tags self ∪ tags index) in
    let '(usedAttributes, writer) :=
      foldl writeFilterAttribute (usedAttributes, writer) (attributes index) in
    (self, usedAttributes, writer)
  else st.

Definition applyFilter (fullName : string) (st : MetaState)
    (index : ManifestMetaFilter) : MetaState :=
  foldl (applyFilterName fullName index) st (names index).

(** [usedAttributes] and [writer] are pointers: [None] is the null
    pointer, for which the function returns at once. *)
Definition processManifestMetaContent (self : ManifestWriter)
    (fullName : string) (usedAttributes : option (list string))
    (writer : option QXmlStreamWriter)
  : ManifestWriter * option (list string) * option QXmlStreamWriter :=
  match usedAttributes, writer with
  | Some used, Some w =>
      let '(self, used, w) :=
        foldl (applyFilter fullName) (self, used, w)
              (m_manifestMetaContent self) in
      (self, Some used, Some w)
  | _, _ => (self, usedAttributes, writer)
  end.

(** [m_tags.values()], sorted, joined with commas; then the set is
    cleared.  Nothing happens for a null writer or an empty set. *)
Definition writeTagsElement (self : ManifestWriter)
    (writer : option QXmlStreamWriter)
  : ManifestWriter * option QXmlStreamWriter :=
  match writer with
  | None => (self, writer)
  | Some w =>
      if bool_decide (m_tags self = ∅) then (self, writer)
      else
        let w := writeStartElement "tags" w in
        let sortedTags := merge_sort String.le (elements (m_tags self)) in
        let w := writeCharacters (QString.join ","%char sortedTags) w in
        let w := writeEndElement w in
        (set_m_tags self ∅, Some w)
  end.

(** The body of the loop of [cleanUpTags] for one tag: the tag as it is
    added to [cleanedTags], or [None] where the loop continues. *)
Definition cleanUpTag (tag : string) : option string :=
  let tag :=
    if Ascii.eqb (QString.at0 tag) "("%char
    then QString.chop 1 (QString.removeFirst tag) else tag in
  let tag :=
    if QString.endsWith tag ":" then QString.chop 1 tag else tag in
  if (String.length tag <? 2)%nat
     || QString.isDigit (QString.at0 tag)
     || Ascii.eqb (QString.at0 tag) "-"%char
     || String.eqb tag "qt" || String.eqb tag "the" || String.eqb tag "and"
     || QString.startsWith tag "example"
     || QString.startsWith tag "chapter"
  then None
  else Some tag.

Definition cleanUpTags (self : ManifestWriter) : ManifestWriter :=
  let cleanedTags : gset string := set_omap cleanUpTag (m_tags self) in
  set_m_tags self cleanedTags.

Definition addTitleWordsToTags (self : ManifestWriter)
    (example : option ExampleNode) : ManifestWriter :=
  match example with
  | None => self
  | Some example =>
      let titleWords :=
        QString.split " "%char (QString.toLower (title example)) in
      set_m_tags self (m_tags self ∪ list_to_set titleWords)
  end.

(** [([A-Z]+[a-z0-9]*(3D|GL)?)]; the one capture group spans the whole
    pattern, so [captured(1)] is the whole match. *)
Definition moduleWord : QRegularExpression.pattern :=
  let cls_AZ := QString.isUpperAZ in
  let cls_az09 := fun c => QString.isLowerAZ c || QString.isDigit c in
  QRegularExpression.Seq (QRegularExpression.Plus cls_AZ)
    (QRegularExpression.Seq (QRegularExpression.Star cls_az09)
       (QRegularExpression.Opt
          (QRegularExpression.Alt (QRegularExpression.Lit "3D")
                                  (QRegularExpression.Lit "GL")))).

(** The while loop of [addWordsFromModuleNamesAsTags]; [None] when
    [fuel] iterations were not enough. *)
Fixpoint addWords_loop (fuel : nat) (project : string) (pos : nat)
    (tags : gset string) : option (gset string) :=
  match fuel with
  | O => None
  | S fuel' =>
      match QRegularExpression.match_ moduleWord project pos with
      | Some range =>
          addWords_loop fuel' project range.2
            (tags ∪ {[ QString.toLower
                         (QRegularExpression.captured project range) ]})
      | None => Some tags
      end
  end.

(** Every match is at least one character long, so the loop runs at most
    once per character of the project name and once more to find no
    match ([addWords_loop_total] below). *)
Definition addWordsFromModuleNamesAsTags (self : ManifestWriter)
  : ManifestWriter :=
  let project := m_project self in
  match addWords_loop (S (String.length project)) project 0 (m_tags self) with
  | Some tags => set_m_tags self tags
  | None => self
  end.

Definition includeTagsAddedWithMetaCommand (self : ManifestWriter)
    (example : option ExampleNode) : ManifestWriter :=
  match example with
  | None => self
  | Some example =>
      match metaTagMap example with
      | Some metaTagMap =>
          foldl (fun self tag =>
                   let tagList :=
                     QString.split ","%char (QString.toLower tag) in
                   set_m_tags self (m_tags self ∪ list_to_set tagList))
                self (multiMapValues "tag" metaTagMap)
      | None => self
      end
  end.

Definition retrieveExampleInstallationPath (self : ManifestWriter)
    (example : ExampleNode) : string :=
  let installPath :=
    match metaTagMap example with
    | Some m => multiMapValue "installpath" m
    | None => ""
    end in
  let installPath :=
    if String.eqb installPath "" then m_examplesPath self else installPath in
  if negb (String.eqb installPath "") && negb (QString.endsWith installPath "/")
  then installPath +:+ "/" else installPath.

(** ** Manifest generation *)

(** What a call leaves behind besides the writer object: the warnings
    issued and, when a file was written, its name and its document. *)
Record Effects : Type := {
  warnings : list string;
  outputs : list (string * QXmlStreamWriter);
}.

Definition noEffects : Effects := {| warnings := []; outputs := [] |}.

Definition addWarnings (ws : list string) (e : Effects) : Effects :=
  {| warnings := warnings e ++ ws; outputs := outputs e |}.

Definition addOutput (path : string) (doc : QXmlStreamWriter) (e : Effects)
  : Effects :=
  {| warnings := warnings e; outputs := outputs e ++ [(path, doc)] |}.

(** The value of a writer pointer that is known not to be null. *)
Definition deref {A : Type} (fallback : A) (p : option A) : A :=
  default fallback p.

Section Generation.

(** [Generator::fileBase(example)], defined in the generator. *)
Variable fileBase : ExampleNode -> string.

(** Whether [QFile::open(WriteOnly | Text)] succeeds on a path. *)
Variable openForWriting : string -> bool.

Definition isDemo (example : ExampleNode) : bool :=
  QString.startsWith (name example) "demos".

(** The loop body of [generateManifestFile] after the two [continue]
    tests: one element for one example. *)
Definition writeExample (element : string)
    (st : ManifestWriter * QXmlStreamWriter * list string)
    (example : ExampleNode)
  : ManifestWriter * QXmlStreamWriter * list string :=
  let '(self, writer, warned) := st in
  let installPath := retrieveExampleInstallationPath self example in
  let usedAttributes := ["name"; "docUrl"] in
  let writer := writeStartElement element writer in
  let writer := writeAttribute "name" (title example) writer in
  let docUrl := m_manifestDir self +:+ fileBase example +:+ ".html" in
  let writer := writeAttribute "docUrl" docUrl writer in
  let '(usedAttributes, writer) :=
    if negb (String.eqb (projectFile example) "") then
      (usedAttributes ++ ["projectPath"],
       writeAttribute "projectPath" (installPath +:+ projectFile example)
                      writer)
    else (usedAttributes, writer) in
  let '(usedAttributes, writer) :=
    if negb (String.eqb (imageFileName example) "") then
      (usedAttributes ++ ["imageUrl"],
       writeAttribute "imageUrl"
                      (m_manifestDir self +:+ imageFileName example) writer)
    else (usedAttributes, writer) in
  let fullName := m_project self +:+ "/" +:+ title example in
  let '(self, used', writer') :=
    processManifestMetaContent self fullName (Some usedAttributes)
                               (Some writer) in
  let usedAttributes := deref usedAttributes used' in
  let writer := deref writer writer' in
  let warned :=
    warned ++ warnAboutUnusedAttributes usedAttributes (name example) in
  let writer := writeDescription writer example in
  let self := addWordsFromModuleNamesAsTags self in
  let self := includeTagsAddedWithMetaCommand self (Some example) in
  let self := addTitleWordsToTags self (Some example) in
  let self := cleanUpTags self in
  let '(self, writer') := writeTagsElement self (Some writer) in
  let writer := deref writer writer' in
  let exampleName :=
    QString.mid (QString.lastIndexOf "/"%char (name example) + 1)
                (name example) in
  let filesToOpen := getFilesToOpen (files example) exampleName in
  let writer := writeFilesToOpen writer installPath filesToOpen in
  let writer := writeEndElement writer in
  (self, writer, warned).

(** The whole loop body, with its [continue]s. *)
Definition exampleStep (demos : bool) (element : string)
    (st : ManifestWriter * QXmlStreamWriter * list string)
    (example : ExampleNode)
  : ManifestWriter * QXmlStreamWriter * list string :=
  if demos then
    if negb (isDemo example) then st else writeExample element st example
  else if isDemo example then st
  else writeExample element st example.

Definition generateManifestFile (self : ManifestWriter)
    (manifest element : string) (fx : Effects) : ManifestWriter * Effects :=
  let exampleNodeMap := exampleNodeMap self in
  if bool_decide (exampleNodeMap = []) then (self, fx)
  else
    let demos := String.eqb manifest "demos" in
    let proceed :=
      existsb (fun example => Bool.eqb demos (isDemo example))
              exampleNodeMap in
    if negb proceed then (self, fx)
    else
      let outputFileName := manifest +:+ "-manifest.xml" in
      let outputFile := m_outputDirectory self +:+ "/" +:+ outputFileName in
      if negb (openForWriting outputFile) then (self, fx)
      else
        let writer : QXmlStreamWriter := [] in
        let writer := writeStartDocument writer in
        let writer := writeStartElement "instructionals" writer in
        let writer := writeAttribute "module" (m_project self) writer in
        let writer := writeStartElement manifest writer in
        let '(self, writer, warned) :=
          foldl (exampleStep demos element) (self, writer, [])
                exampleNodeMap in
        let writer := writeEndElement writer in
        let writer := writeEndElement writer in
        let writer := writeEndDocument writer in
        (self, addOutput outputFile writer (addWarnings warned fx)).

Definition generateManifestFiles (self : ManifestWriter) (fx : Effects)
  : ManifestWriter * Effects :=
  let '(self, fx) := generateManifestFile self "examples" "example" fx in
  let '(self, fx) := generateManifestFile self "demos" "demo" fx in
  ({| m_tags := m_tags self;
      m_manifestDir := m_manifestDir self;
      m_examplesPath := m_examplesPath self;
      m_outputDirectory := m_outputDirectory self;
      m_project := m_project self;
      m_manifestMetaContent := [];
      exampleNodeMap := [] |}, fx).

End Generation.

(** ** Notions for the statements

    [rankedAt] follows the wording of the specification; the other
    definitions name what the code writes, so that the properties can
    speak about it. *)

(** File ranking as the specification lists it: the condition under
    which a file is given a priority. *)
Definition rankedAt (exampleName : string) (priority : Z) (file : string)
  : bool :=
  let fileName := QString.toLower (QFileInfo.fileName file) in
  let matches :=
    QString.equalsCaseInsensitive (QFileInfo.baseName file) exampleName in
  if (priority =? 0)%Z then matches && QString.endsWith fileName ".qml"
  else if (priority =? 1)%Z then matches && QString.endsWith fileName ".cpp"
  else if (priority =? 2)%Z then matches && QString.endsWith fileName ".h"
  else if (priority =? 3)%Z then
    negb matches && QString.endsWith fileName "main.qml"
  else if (priority =? 4)%Z then
    negb matches && QString.endsWith fileName "main.cpp"
  else false.

(** One [fileToOpen] element. *)
Definition fileToOpen (mainFile : bool) (text : string) : list XmlToken :=
  [StartElement "fileToOpen"]
  ++ (if mainFile then [Attribute "mainFile" "true"] else [])
  ++ [Characters text; EndElement].

(** The texts written, in the order in which they were written. *)
Definition writtenTexts (writer : QXmlStreamWriter) : list string :=
  omap (fun tok => match tok with Characters text => Some text | _ => None end)
       writer.

(** A rule matches a full name when one of its names does. *)
Definition ruleMatches (fullName : string) (index : ManifestMetaFilter)
  : bool :=
  existsb (fun name => nameMatches name fullName) (names index).

(** The attribute specifications of the matching rules, in the
    configured order of the rules. *)
Definition configuredAttributes (fullName : string)
    (filters : list ManifestMetaFilter) : list string :=
  flat_map (fun index =>
              if ruleMatches fullName index then attributes index else [])
           filters.

(** The value that the first specification of a key gives it. *)
Definition firstValue (key : string) (attrs : list string) : option string :=
  attrValue <$> head (filter (fun a => attrName a = key) attrs).

(** The tags of the matching rules. *)
Definition appliedTags (fullName : string)
    (filters : list ManifestMetaFilter) : gset string :=
  ⋃ ((fun index => if ruleMatches fullName index then tags index else ∅)
       <$> filters).

(** The attribute specifications in the order in which the loops of
    [processManifestMetaContent] come to them: those of a rule once for
    each of its names that matches. *)
Definition visitedAttributes (fullName : string)
    (filters : list ManifestMetaFilter) : list string :=
  flat_map (fun index =>
              flat_map (fun name =>
                          if nameMatches name fullName then attributes index
                          else [])
                       (names index))
           filters.

(** The attributes written for a list of specifications, given the
    keys used before. *)
Fixpoint newAttributes (used : list string) (attrs : list string)
  : list (string * string) :=
  match attrs with
  | [] => []
  | a :: rest =>
      if bool_decide (attrName a ∈ used) then newAttributes used rest
      else (attrName a, attrValue a)
             :: newAttributes (used ++ [attrName a]) rest
  end.

Definition attributeTokens (attrs : list (string * string))
  : list XmlToken :=
  (fun kv => Attribute kv.1 kv.2) <$> attrs.

(** The full name under which the filter rules look at an example. *)
Definition exampleFullName (self : ManifestWriter) (example : ExampleNode)
  : string :=
  m_project self +:+ "/" +:+ title example.

(** The attributes that [generateManifestFile] writes itself, before
    the filter rules are consulted. *)
Definition fixedAttributes (fileBase : ExampleNode -> string)
    (self : ManifestWriter) (example : ExampleNode)
  : list (string * string) :=
  [("name", title example);
   ("docUrl", m_manifestDir self +:+ fileBase example +:+ ".html")]
  ++ (if String.eqb (projectFile example) "" then []
      else [("projectPath",
             retrieveExampleInstallationPath self example
             +:+ projectFile example)])
  ++ (if String.eqb (imageFileName example) "" then []
      else [("imageUrl", m_manifestDir self +:+ imageFileName example)]).

(** The attributes that the filter rules add for an example. *)
Definition filterAttributes (fileBase : ExampleNode -> string)
    (self : ManifestWriter) (example : ExampleNode)
  : list (string * string) :=
  newAttributes (fixedAttributes fileBase self example).*1
    (visitedAttributes (exampleFullName self example)
                       (m_manifestMetaContent self)).

(** The [tags] element for a tag set: nothing for the empty set. *)
Definition tagsElement (ts : gset string) : list XmlToken :=
  if bool_decide (ts = ∅) then []
  else [StartElement "tags";
        Characters (QString.join ","%char (merge_sort String.le (elements ts)));
        EndElement].

(** The tag set of an example at the time its [tags] element is
    written, for a writer that comes to the example with the tag set
    [m_tags self]. *)
Definition exampleTags (self : ManifestWriter) (example : ExampleNode)
  : gset string :=
  let self :=
    set_m_tags self
      (m_tags self
       ∪ appliedTags (exampleFullName self example)
                     (m_manifestMetaContent self)) in
  let self := addWordsFromModuleNamesAsTags self in
  let self := includeTagsAddedWithMetaCommand self (Some example) in
  let self := addTitleWordsToTags self (Some example) in
  m_tags (cleanUpTags self).

(** The document that serializes the examples [selected], one element
    each through the loop body of [generateManifestFile], between the
    opening and the closing tokens of a manifest. *)
Definition manifestDocument (fileBase : ExampleNode -> string)
    (self : ManifestWriter) (manifest element : string)
    (selected : list ExampleNode) : QXmlStreamWriter :=
  let opening :=
    [StartDocument; StartElement "instructionals";
     Attribute "module" (m_project self); StartElement manifest] in
  (foldl (writeExample fileBase element) (self, opening, []) selected).1.2
  ++ [EndElement; EndElement; EndDocument].

(** The tag functions change nothing but the tag set. *)
Definition tagsOnly (f : ManifestWriter → ManifestWriter) : Prop :=
  ∀ self, ∃ ts, f self = set_m_tags self ts.

(** ** What the stream writer expects of its caller

    [QXmlStreamWriter] writes whatever it is asked to; the result is an
    XML document only if the calls come in a sensible order.  The
    context below follows a token sequence: before the document, inside
    it (whether the root element has been started, how many elements
    are open, and the attribute names of a start tag that is still
    open), and after it. *)
Inductive XmlContext : Type :=
| Prolog
| Body (rooted : bool) (depth : nat) (startTag : option (list string))
| Epilog.

Definition xmlStep (ctx : XmlContext) (tok : XmlToken) : option XmlContext :=
  match ctx, tok with
  | Prolog, StartDocument => Some (Body false 0 None)
  | Body rooted depth _, StartElement _ =>
      if (depth =? 0)%nat && rooted then None
      else Some (Body true (S depth) (Some []))
  | Body rooted depth (Some ns), Attribute n _ =>
      if bool_decide (n ∈ ns) then None
      else Some (Body rooted depth (Some (ns ++ [n])))
  | Body rooted (S depth) _, Characters _ => Some (Body rooted (S depth) None)
  | Body rooted (S depth) _, CDATA _ => Some (Body rooted (S depth) None)
  | Body rooted (S depth) _, EndElement => Some (Body rooted depth None)
  | Body true 0 _, EndDocument => Some Epilog
  | _, _ => None
  end.

Fixpoint xmlScan (ctx : XmlContext) (toks : list XmlToken)
  : option XmlContext :=
  match toks with
  | [] => Some ctx
  | tok :: toks' =>
      match xmlStep ctx tok with
      | Some ctx' => xmlScan ctx' toks'
      | None => None
      end
  end.

(** A document: started and ended once, one root element, every
    element closed, attributes only in start tags and no name twice in
    one tag, text only inside elements. *)
Definition wellFormedDocument (doc : list XmlToken) : bool :=
  match xmlScan Prolog doc with
  | Some Epilog => true
  | _ => false
  end.

(** Every character of a string meets a test. *)
Fixpoint allChars (test : ascii -> bool) (s : string) : bool :=
  match s with
  | EmptyString => true
  | String c s' => test c && allChars test s'
  end.

(** No matching rule has a specification for the key. *)
Definition notConfigured (key : string) (rules : list string) : bool :=
  match firstValue key rules with
  | None => true
  | Some _ => false
  end.

(** The three sources of tags besides the filter rules. *)
Definition moduleWords (project : string) : gset string :=
  default ∅ (addWords_loop (S (String.length project)) project 0 ∅).

Definition metaTags (example : ExampleNode) : gset string :=
  match metaTagMap example with
  | Some m =>
      ⋃ ((fun tag =>
            list_to_set (QString.split ","%char (QString.toLower tag)))
           <$> multiMapValues "tag" m)
  | None => ∅
  end.

Definition titleWords (example : ExampleNode) : gset string :=
  list_to_set (QString.split " "%char (QString.toLower (title example))).

(** The tokens of the element of one example, as the loop body of
    [generateManifestFile] writes them for a writer that comes to the
    example with the tag set [m_tags self]. *)
Definition exampleElement (fileBase : ExampleNode -> string)
    (element : string) (self : ManifestWriter) (example : ExampleNode)
  : list XmlToken :=
  [StartElement element]
  ++ attributeTokens (fixedAttributes fileBase self example
                      ++ filterAttributes fileBase self example)
  ++ writeDescription [] example
  ++ tagsElement (exampleTags self example)
  ++ writeFilesToOpen [] (retrieveExampleInstallationPath self example)
       (getFilesToOpen (files example)
          (QString.mid (QString.lastIndexOf "/"%char (name example) + 1)
                       (name example)))
  ++ [EndElement].





(** * Properties *)

(** ** The primitives on sample values *)

Example fileName_sample : QFileInfo.fileName "bar/Main.cpp" = "Main.cpp".
Proof. reflexivity. Qed.

Example baseName_sample : QFileInfo.baseName "a/b/foo.tar.gz" = "foo".
Proof. reflexivity. Qed.

Example baseName_no_dot : QFileInfo.baseName "a/Makefile" = "Makefile".
Proof. reflexivity. Qed.

Example split_keeps_empty_parts :
  QString.split "," "a,,b," = ["a"; ""; "b"; ""].
Proof. reflexivity. Qed.

Example split_empty_string : QString.split ":" "" = [""].
Proof. reflexivity. Qed.

Example join_sample : QString.join ":" ["a"; "b"; "c"] = "a:b:c".
Proof. reflexivity. Qed.

Example attribute_with_value :
  (attrName "category:a:b", attrValue "category:a:b") = ("category", "a:b").
Proof. reflexivity. Qed.

Example attribute_without_value :
  (attrName "isHighlighted", attrValue "isHighlighted")
  = ("isHighlighted", "true").
Proof. reflexivity. Qed.

Example match_Quick3D :
  QRegularExpression.match_ moduleWord "QtQuick3D" 2 = Some (2, 8).
Proof. reflexivity. Qed.

Example match_OpenGL :
  QRegularExpression.match_ moduleWord "QtOpenGL" 2 = Some (2, 8).
Proof. reflexivity. Qed.

Example cleanUpTag_samples :
  cleanUpTag "(beta)" = Some "beta" ∧ cleanUpTag "note:" = Some "note"
  ∧ cleanUpTag "" = None ∧ cleanUpTag "3d" = None ∧ cleanUpTag "qt" = None
  ∧ cleanUpTag "examples" = None ∧ cleanUpTag "-x" = None.
Proof. repeat split; reflexivity. Qed.

(** The suffix tests see the lowercased file name; the file is stored
    as it was given. *)
Example ranking_upper_case :
  getFilesToOpen ["src/FOO.QML"; "Main.CPP"] "foo"
  = [(0%Z, "src/FOO.QML"); (4%Z, "Main.CPP")].
Proof. reflexivity. Qed.

Example ranking_sample :
  getFilesToOpen ["foo.qml"; "foo.cpp"; "bar/main.cpp"] "foo"
  = [(0%Z, "foo.qml"); (1%Z, "foo.cpp"); (4%Z, "bar/main.cpp")].
Proof. reflexivity. Qed.

(** ** [QMap] *)

Section QMapFacts.
Context {T : Type}.
Implicit Types (m : QMap.t T) (k : Z) (v : T).

Lemma QMap_value_insert m k v k' :
  QMap.value k' (QMap.insert k v m)
  = if (k' =? k)%Z then Some v else QMap.value k' m.
Proof.
  induction m as [|[k0 v0] m IH]; simpl.
  - reflexivity.
  - destruct (Z.ltb_spec k k0); simpl.
    + reflexivity.
    + destruct (Z.eqb_spec k k0); simpl.
      * subst k0. destruct (k' =? k)%Z; reflexivity.
      * rewrite IH. destruct (Z.eqb_spec k' k0), (Z.eqb_spec k' k);
          try reflexivity; lia.
Qed.

Lemma QMap_keys_insert m k v x :
  x ∈ QMap.keys (QMap.insert k v m) ↔ x = k ∨ x ∈ QMap.keys m.
Proof.
  unfold QMap.keys. induction m as [|[k0 v0] m IH]; simpl.
  - rewrite list_elem_of_singleton, elem_of_nil. naive_solver.
  - destruct (Z.ltb_spec k k0); simpl; [rewrite !elem_of_cons; naive_solver|].
    destruct (Z.eqb_spec k k0); simpl; [rewrite !elem_of_cons; naive_solver|].
    rewrite !elem_of_cons, IH. naive_solver.
Qed.

Lemma QMap_insert_wf m k v : QMap.wf m → QMap.wf (QMap.insert k v m).
Proof.
  unfold QMap.wf. induction m as [|[k0 v0] m IH]; simpl; intros Hwf.
  - repeat constructor.
  - apply StronglySorted_inv in Hwf as [Hm Hall].
    destruct (Z.ltb_spec k k0); simpl.
    + constructor; [constructor; assumption|].
      constructor; [assumption|].
      eapply Forall_impl; [exact Hall|]. simpl; intros; lia.
    + destruct (Z.eqb_spec k k0); simpl.
      * subst k0. constructor; assumption.
      * constructor; [auto|].
        apply Forall_forall. intros x Hx.
        apply (QMap_keys_insert m k v x) in Hx as [->|Hx]; [lia|].
        rewrite Forall_forall in Hall. auto.
Qed.

Lemma QMap_wf_head_least m k v :
  QMap.wf ((k, v) :: m) → ∀ x, x ∈ QMap.keys ((k, v) :: m) → (k <= x)%Z.
Proof.
  unfold QMap.wf, QMap.keys. simpl. intros Hwf x Hx.
  apply StronglySorted_inv in Hwf as [_ Hall].
  apply elem_of_cons in Hx as [->|Hx]; [lia|].
  rewrite Forall_forall in Hall. specialize (Hall x Hx). lia.
Qed.

Lemma QMap_wf_reverse_decreasing m :
  QMap.wf m → StronglySorted Z.gt (QMap.keys (reverse m)).
Proof.
  unfold QMap.wf, QMap.keys. rewrite fmap_reverse.
  generalize (m.*1). clear m. intros l.
  induction l as [|x l IH]; intros Hl.
  - constructor.
  - rewrite reverse_cons. apply StronglySorted_cons in Hl as [Hall Hl].
    apply StronglySorted_app_2; [|auto|repeat constructor].
    intros x1 x2 Hx1 Hx2. apply list_elem_of_singleton in Hx2 as ->.
    rewrite elem_of_reverse in Hx1. rewrite Forall_forall in Hall.
    specialize (Hall _ Hx1). lia.
Qed.
End QMapFacts.

(** ** File ranking *)

(** Two suffixes that differ in their last character exclude each
    other. *)
Lemma endsWith_exclusive (s : string) (a b : ascii) (p q : string) :
  a ≠ b →
  QString.endsWith s (String.rev (String a p)) = true →
  QString.endsWith s (String.rev (String b q)) = false.
Proof.
  unfold QString.endsWith. intros Hab.
  assert (Hrr : ∀ t, String.rev (String.rev t) = t).
  { assert (Hgo : ∀ t acc,
               String.rev_app (String.rev_app t acc) ""
               = String.rev_app acc t).
    { induction t as [|c t IH]; intros acc; simpl; [reflexivity|].
      rewrite IH. reflexivity. }
    intros t. unfold String.rev. rewrite Hgo. reflexivity. }
  rewrite !Hrr. destruct (String.rev s) as [|c r]; simpl; [discriminate|].
  destruct (ascii_dec a c) as [->|]; [|discriminate].
  destruct (ascii_dec b c) as [->|]; [congruence|reflexivity].
Qed.

Ltac suffixes_clash H :=
  match type of H with
  | QString.endsWith ?s ?p = true =>
      match goal with
      | |- context [QString.endsWith s ?q] =>
          let a := eval vm_compute in (QString.at0 (String.rev p)) in
          let p' := eval vm_compute in (QString.removeFirst (String.rev p)) in
          let b := eval vm_compute in (QString.at0 (String.rev q)) in
          let q' := eval vm_compute in (QString.removeFirst (String.rev q)) in
          let E := fresh "E" in
          assert (E : QString.endsWith s q = false)
            by exact (endsWith_exclusive s a b p' q' ltac:(discriminate) H);
          rewrite E; clear E
      end
  end.

Lemma getFilesToOpen_step_value exampleName m file priority :
  QMap.value priority (getFilesToOpen_step exampleName m file)
  = if rankedAt exampleName priority file then Some file
    else QMap.value priority m.
Proof.
  unfold getFilesToOpen_step, rankedAt.
  set (fileName := QString.toLower (QFileInfo.fileName file)).
  destruct (QString.equalsCaseInsensitive _ _); simpl.
  - destruct (QString.endsWith fileName ".qml") eqn:Hqml.
    { rewrite QMap_value_insert.
      destruct (Z.eqb_spec priority 0) as [->|]; [reflexivity|].
      repeat suffixes_clash Hqml.
      repeat (destruct (_ =? _)%Z; try reflexivity). }
    destruct (QString.endsWith fileName ".cpp") eqn:Hcpp.
    { rewrite QMap_value_insert.
      destruct (Z.eqb_spec priority 1) as [->|]; [reflexivity|].
      repeat suffixes_clash Hcpp.
      repeat (destruct (_ =? _)%Z; try reflexivity). }
    destruct (QString.endsWith fileName ".h") eqn:Hh.
    { rewrite QMap_value_insert.
      destruct (Z.eqb_spec priority 2) as [->|]; [reflexivity|].
      repeat (destruct (_ =? _)%Z; try reflexivity). }
    repeat (destruct (_ =? _)%Z; try reflexivity).
  - destruct (QString.endsWith fileName "main.qml") eqn:Hqml.
    { rewrite QMap_value_insert.
      destruct (Z.eqb_spec priority 3) as [->|]; [reflexivity|].
      repeat suffixes_clash Hqml.
      repeat (destruct (_ =? _)%Z; try reflexivity). }
    destruct (QString.endsWith fileName "main.cpp") eqn:Hcpp.
    { rewrite QMap_value_insert.
      destruct (Z.eqb_spec priority 4) as [->|]; [reflexivity|].
      repeat (destruct (_ =? _)%Z; try reflexivity). }
    repeat (destruct (_ =? _)%Z; try reflexivity).
Qed.

Lemma getFilesToOpen_step_wf exampleName m file :
  QMap.wf m → QMap.wf (getFilesToOpen_step exampleName m file).
Proof.
  intros Hwf. unfold getFilesToOpen_step.
  repeat (destruct (_ : bool)); auto using QMap_insert_wf.
Qed.

Lemma getFilesToOpen_wf files exampleName :
  QMap.wf (getFilesToOpen files exampleName).
Proof.
  unfold getFilesToOpen.
  induction files as [|file files IH] using rev_ind.
  - constructor.
  - rewrite foldl_snoc. apply getFilesToOpen_step_wf, IH.
Qed.

(** C5.  For every file list and example base name, the ranking maps
    each priority to the last file of the input that the specification
    gives that priority: 0, 1 and 2 for a file whose base name equals
    the example name up to case and whose lowercased name ends with
    ".qml", ".cpp" and ".h"; 3 and 4 for a file whose base name differs
    and whose lowercased name ends with "main.qml" and "main.cpp".  A
    file with no priority is in no bucket, and no other priority is
    used. *)
Theorem getFilesToOpen_ranks (files : list string) (exampleName : string)
    (priority : Z) :
  QMap.value priority (getFilesToOpen files exampleName)
  = last (filter (fun file => rankedAt exampleName priority file = true) files).
Proof.
  unfold getFilesToOpen.
  induction files as [|file files IH] using rev_ind.
  - reflexivity.
  - rewrite foldl_snoc, getFilesToOpen_step_value, IH, filter_app.
    destruct (rankedAt exampleName priority file) eqn:Hr.
    + rewrite (filter_cons_True _ file []) by exact Hr.
      rewrite filter_nil, last_snoc. reflexivity.
    + rewrite (filter_cons_False _ file []) by (rewrite Hr; discriminate).
      rewrite filter_nil, app_nil_r. reflexivity.
Qed.

(** ** Writing the files to open *)

Lemma writeFilesToOpen_from_head (n : nat) writer installPath
    (e : Z * string) (rest : QMap.t string) :
  n ≤ length rest →
  writeFilesToOpen_from (S n) writer installPath (e :: rest)
  = writer
    ++ flat_map (fun e' => fileToOpen false (installPath +:+ e'.2))
                (reverse (take n rest))
    ++ fileToOpen true (installPath +:+ e.2).
Proof.
  revert writer. induction n as [|n IH]; intros writer Hn.
  - simpl. unfold writeEndElement, writeCharacters, writeAttribute,
      writeStartElement, writeToken, fileToOpen.
    rewrite <- !app_assoc. reflexivity.
  - destruct (lookup_lt_is_Some_2 rest n) as [x Hx]; [lia|].
    rewrite (take_S_r _ _ _ Hx), reverse_snoc.
    change (writeFilesToOpen_from (S (S n)) writer installPath (e :: rest))
      with (writeFilesToOpen_from (S n)
              (writeEndElement
                 (writeCharacters
                    (installPath +:+ (nth (S n) (e :: rest) (0%Z, "")).2)
                    (writeStartElement "fileToOpen" writer)))
              installPath (e :: rest)).
    rewrite IH by lia. simpl nth.
    rewrite (nth_lookup_Some _ _ _ _ Hx).
    unfold writeEndElement, writeCharacters, writeStartElement, writeToken,
      fileToOpen at 3.
    simpl. rewrite <- !app_assoc. reflexivity.
Qed.

(** The blocks written, for a ranking with entries: the rest of the
    entries from the last one down, then the first entry, marked. *)
Lemma writeFilesToOpen_cons writer installPath e (rest : QMap.t string) :
  writeFilesToOpen writer installPath (e :: rest)
  = writer
    ++ flat_map (fun e' => fileToOpen false (installPath +:+ e'.2))
                (reverse rest)
    ++ fileToOpen true (installPath +:+ e.2).
Proof.
  unfold writeFilesToOpen. simpl length.
  rewrite writeFilesToOpen_from_head by lia.
  rewrite firstn_all. reflexivity.
Qed.

Lemma writtenTexts_app w1 w2 :
  writtenTexts (w1 ++ w2) = writtenTexts w1 ++ writtenTexts w2.
Proof. apply omap_app. Qed.

Lemma writtenTexts_blocks (f : Z * string → string) (l : QMap.t string) :
  writtenTexts (flat_map (fun e => fileToOpen false (f e)) l) = f <$> l.
Proof.
  induction l as [|e l IH]; [reflexivity|].
  cbn [flat_map]. rewrite writtenTexts_app, IH. reflexivity.
Qed.

Lemma count_mainFile_blocks (f : Z * string → string) (l : QMap.t string) :
  count_occ XmlToken_eq_dec
            (flat_map (fun e => fileToOpen false (f e)) l)
            (Attribute "mainFile" "true") = 0.
Proof.
  induction l as [|e l IH]; [reflexivity|].
  cbn [flat_map]. rewrite count_occ_app, IH. reflexivity.
Qed.

(** C1, as the code has it.  For every ranking the file texts are
    written in the reverse of the ranking's order, that is in order of
    decreasing priority number: the most preferred file is written
    last. *)
Theorem writeFilesToOpen_decreasing (installPath : string)
    (filesToOpen : QMap.t string) (Hwf : QMap.wf filesToOpen) :
  writtenTexts (writeFilesToOpen [] installPath filesToOpen)
  = (fun e => installPath +:+ e.2) <$> reverse filesToOpen
  ∧ StronglySorted Z.gt (QMap.keys (reverse filesToOpen)).
Proof.
  split; [|apply QMap_wf_reverse_decreasing, Hwf].
  destruct filesToOpen as [|e rest]; [reflexivity|].
  rewrite writeFilesToOpen_cons, app_nil_l, writtenTexts_app.
  rewrite (writtenTexts_blocks (fun e => installPath +:+ e.2)).
  rewrite reverse_cons, fmap_app. reflexivity.
Qed.

Lemma writeFilesToOpen_decreasing_witness :
  let m := getFilesToOpen ["foo.qml"; "foo.cpp"; "bar/main.cpp"] "foo" in
  QMap.wf m
  ∧ writtenTexts (writeFilesToOpen [] "qt/" m)
    = ["qt/bar/main.cpp"; "qt/foo.cpp"; "qt/foo.qml"].
Proof.
  split; [apply getFilesToOpen_wf|].
  exact (proj1 (writeFilesToOpen_decreasing "qt/" _
                  (getFilesToOpen_wf _ "foo"))).
Defined.

(** C1, as the specification states it, fails: the ranking of
    foo.qml (priority 0) and foo.cpp (priority 1) is written with
    foo.cpp first. *)
Lemma writeFilesToOpen_not_increasing :
  let m := getFilesToOpen ["foo.qml"; "foo.cpp"] "foo" in
  QMap.wf m ∧ m ≠ []
  ∧ m = [(0%Z, "foo.qml"); (1%Z, "foo.cpp")]
  ∧ writtenTexts (writeFilesToOpen [] "" m) ≠ m.*2.
Proof.
  split; [apply getFilesToOpen_wf|].
  split; [discriminate|]. split; [reflexivity|]. discriminate.
Qed.

(** C4.  An empty ranking writes nothing.  A ranking with entries
    writes one block per entry; the block of the first entry, whose
    priority number is the lowest present, is the last one written and
    the only one with mainFile="true". *)
Theorem writeFilesToOpen_mainFile (writer : QXmlStreamWriter)
    (installPath : string) (filesToOpen : QMap.t string)
    (Hwf : QMap.wf filesToOpen) :
  match filesToOpen with
  | [] => writeFilesToOpen writer installPath filesToOpen = writer
  | (priority, file) :: rest =>
      writeFilesToOpen writer installPath filesToOpen
      = writer
        ++ flat_map (fun e => fileToOpen false (installPath +:+ e.2))
                    (reverse rest)
        ++ fileToOpen true (installPath +:+ file)
      ∧ (∀ k, k ∈ QMap.keys filesToOpen → (priority <= k)%Z)
      ∧ QMap.value priority filesToOpen = Some file
      ∧ count_occ XmlToken_eq_dec
                  (writeFilesToOpen [] installPath filesToOpen)
                  (Attribute "mainFile" "true") = 1
  end.
Proof.
  destruct filesToOpen as [|[priority file] rest]; [reflexivity|].
  split; [apply writeFilesToOpen_cons|].
  split; [apply (QMap_wf_head_least _ _ _ Hwf)|].
  split; [simpl; rewrite Z.eqb_refl; reflexivity|].
  rewrite writeFilesToOpen_cons, app_nil_l, count_occ_app.
  rewrite (count_mainFile_blocks (fun e => installPath +:+ e.2)).
  reflexivity.
Qed.

Lemma writeFilesToOpen_mainFile_witness :
  let m := getFilesToOpen ["foo.qml"; "foo.cpp"; "bar/main.cpp"] "foo" in
  QMap.wf m
  ∧ writeFilesToOpen [] "qt/" m
    = fileToOpen false "qt/bar/main.cpp" ++ fileToOpen false "qt/foo.cpp"
      ++ fileToOpen true "qt/foo.qml".
Proof.
  split; [apply getFilesToOpen_wf|].
  exact (proj1 (writeFilesToOpen_mainFile [] "qt/"
                  (getFilesToOpen ["foo.qml"; "foo.cpp"; "bar/main.cpp"] "foo")
                  (getFilesToOpen_wf _ "foo"))).
Defined.

(** ** Strings *)

Lemma indexOf_ge ch s : (-1 <= QString.indexOf ch s)%Z.
Proof.
  induction s as [|c s IH]; simpl; [lia|].
  destruct (Ascii.eqb c ch); [lia|].
  destruct (Z.ltb_spec (QString.indexOf ch s) 0); lia.
Qed.

Lemma indexOf_absent ch s :
  QString.contains ch s = false → QString.indexOf ch s = (-1)%Z.
Proof.
  induction s as [|c s IH]; simpl; [reflexivity|].
  destruct (Ascii.eqb c ch); simpl; [discriminate|].
  intros H. rewrite (IH H). reflexivity.
Qed.

Lemma indexOf_first ch pre post :
  QString.contains ch pre = false →
  QString.indexOf ch (pre +:+ String ch post) = Z.of_nat (String.length pre).
Proof.
  induction pre as [|c pre IH]; simpl.
  - rewrite Ascii.eqb_refl. reflexivity.
  - destruct (Ascii.eqb c ch); simpl; [discriminate|].
    intros H. change (String.append pre (String ch post))
      with (pre +:+ String ch post).
    rewrite (IH H).
    destruct (Z.ltb_spec (Z.of_nat (String.length pre)) 0); lia.
Qed.

Lemma take_app_length pre rest :
  QString.take (String.length pre) (pre +:+ rest) = pre.
Proof.
  induction pre as [|c pre IH]; simpl.
  - destruct rest; reflexivity.
  - f_equal. exact IH.
Qed.

Lemma startsWith_iff s p :
  QString.startsWith s p = true ↔ ∃ rest, s = p +:+ rest.
Proof.
  unfold QString.startsWith. revert s.
  induction p as [|c p IH]; intros s; simpl.
  - split; [eauto|]. intros _. destruct s; reflexivity.
  - destruct s as [|d s]; simpl.
    + split; [discriminate|]. intros [rest H]. discriminate.
    + destruct (ascii_dec c d) as [->|Hne].
      * rewrite IH. split; intros [rest H]; exists rest.
        -- rewrite H. reflexivity.
        -- injection H. auto.
      * split; [discriminate|]. intros [rest H]. injection H. congruence.
Qed.

(** ** Filter names *)

Lemma nameMatches_exact name fullName :
  QString.contains "*" name = false →
  nameMatches name fullName = String.eqb fullName name.
Proof.
  intros H. unfold nameMatches. rewrite (indexOf_absent _ _ H). reflexivity.
Qed.

Lemma nameMatches_leading_star post fullName :
  nameMatches ("*" +:+ post) fullName = true.
Proof. reflexivity. Qed.

Lemma nameMatches_prefix pre post fullName :
  QString.contains "*" pre = false → pre ≠ "" →
  nameMatches (pre +:+ "*" +:+ post) fullName = QString.startsWith fullName pre.
Proof.
  intros Hpre Hne. unfold nameMatches.
  change (pre +:+ "*" +:+ post) with (pre +:+ String "*" post).
  rewrite (indexOf_first _ _ _ Hpre).
  destruct pre as [|c pre]; [congruence|].
  unfold QString.left.
  destruct (Z.of_nat (String.length (String c pre))) eqn:Hlen;
    try (simpl in Hlen; lia).
  rewrite <- Hlen, Nat2Z.id.
  destruct (Z.ltb_spec (Z.of_nat (String.length (String c pre))) 0); [lia|].
  rewrite take_app_length. reflexivity.
Qed.

(** C7.  A filter name without "*" matches exactly the full name equal
    to it; the name "*" matches every full name; a name with its first
    "*" after a non-empty prefix matches exactly the full names that
    start with that prefix; so "MyModule*" matches "MyModule/Foo". *)
Theorem nameMatches_cases (name pre post fullName : string)
    (Hname : QString.contains "*" name = false)
    (Hpre : QString.contains "*" pre = false) (Hne : pre ≠ "") :
  (nameMatches name fullName = true ↔ fullName = name)
  ∧ nameMatches "*" fullName = true
  ∧ (nameMatches (pre +:+ "*" +:+ post) fullName = true
     ↔ ∃ rest, fullName = pre +:+ rest)
  ∧ nameMatches "MyModule*" "MyModule/Foo" = true.
Proof.
  split; [|split; [reflexivity|split; [|reflexivity]]].
  - rewrite nameMatches_exact by exact Hname. apply String.eqb_eq.
  - rewrite nameMatches_prefix by assumption. apply startsWith_iff.
Qed.

Lemma nameMatches_cases_witness :
  nameMatches "QtQuick/Clocks" "QtQuick/Clocks" = true
  ∧ nameMatches "QtQuick/*Demo" "QtQuick/Clocks" = true.
Proof.
  pose proof (nameMatches_cases "QtQuick/Clocks" "QtQuick/" "Demo"
                "QtQuick/Clocks" eq_refl eq_refl ltac:(discriminate))
    as (Hexact & _ & Hprefix & _).
  split.
  - apply Hexact. reflexivity.
  - apply Hprefix. exists "Clocks". reflexivity.
Defined.

(** ** The module name scan terminates *)

Lemma skip_length n s :
  String.length (QString.skip n s) = String.length s - n.
Proof.
  revert s. induction n as [|n IH]; intros [|c s]; simpl; auto with lia.
Qed.

Lemma star_leaves cls s k r :
  QRegularExpression.star cls s k = Some r →
  ∃ s', k s' = Some r ∧ String.length s' ≤ String.length s.
Proof.
  induction s as [|c s IH]; simpl; intros H.
  - eauto.
  - destruct (cls c); [|eauto].
    destruct (QRegularExpression.star cls s k) as [r'|] eqn:Hs; [|eauto].
    destruct (IH H) as (s' & Hk & Hlen).
    exists s'. split; [exact Hk|lia].
Qed.

(** What a successful match hands to its continuation is no longer
    than the subject. *)
Lemma run_leaves p s k r :
  QRegularExpression.run p s k = Some r →
  ∃ s', k s' = Some r ∧ String.length s' ≤ String.length s.
Proof.
  revert s k r. induction p as [l|cls|cls|a IHa b IHb|a IHa|a IHa b IHb];
    intros s k r; simpl; intros H.
  - destruct (String.prefix l s); [|discriminate].
    eexists; split; [exact H|]. rewrite skip_length. lia.
  - apply star_leaves in H. exact H.
  - destruct s as [|c s]; [discriminate|].
    destruct (cls c); [|discriminate].
    apply star_leaves in H as (s' & Hk & Hlen).
    exists s'. split; [exact Hk|simpl; lia].
  - destruct (QRegularExpression.run a s k) eqn:Ha.
    + apply IHa. congruence.
    + apply IHb. exact H.
  - destruct (QRegularExpression.run a s k) eqn:Ha.
    + apply IHa. congruence.
    + eauto.
  - apply IHa in H as (s1 & H1 & Hlen1).
    apply IHb in H1 as (s2 & H2 & Hlen2).
    exists s2. split; [exact H2|lia].
Qed.

(** A pattern that starts with [[..]+] consumes a character. *)
Lemma run_plus_progress cls q s r :
  QRegularExpression.run
    (QRegularExpression.Seq (QRegularExpression.Plus cls) q) s Some = Some r →
  String.length r < String.length s.
Proof.
  cbn [QRegularExpression.run]. destruct s as [|c s]; [discriminate|].
  destruct (cls c); [|discriminate].
  intros H. apply star_leaves in H as (s1 & H1 & Hlen1).
  apply run_leaves in H1 as (s2 & H2 & Hlen2).
  injection H2 as ->. simpl. lia.
Qed.

(** A module word is at least one character long. *)
Lemma moduleWord_progress s r :
  QRegularExpression.run moduleWord s Some = Some r →
  String.length r < String.length s.
Proof. unfold moduleWord. apply run_plus_progress. Qed.

Lemma search_moduleWord s offset range :
  QRegularExpression.search moduleWord s offset = Some range →
  offset < range.2 ∧ range.2 ≤ offset + String.length s.
Proof.
  revert offset. induction s as [|c s IH]; intros offset.
  - simpl. discriminate.
  - cbn [QRegularExpression.search].
    destruct (QRegularExpression.run moduleWord (String c s) Some)
      as [rest|] eqn:Hrun.
    + apply moduleWord_progress in Hrun.
      intros [= <-]. simpl in *. lia.
    + intros H. apply IH in H. simpl. lia.
Qed.

Lemma match_moduleWord subject pos range :
  QRegularExpression.match_ moduleWord subject pos = Some range →
  pos < range.2 ∧ range.2 ≤ String.length subject.
Proof.
  unfold QRegularExpression.match_.
  destruct (Nat.leb_spec pos (String.length subject)) as [Hle|]; [|discriminate].
  intros Hs. apply search_moduleWord in Hs. rewrite skip_length in Hs. lia.
Qed.

Lemma addWords_loop_enough fuel project pos tags :
  pos ≤ String.length project → String.length project - pos < fuel →
  is_Some (addWords_loop fuel project pos tags).
Proof.
  revert pos tags. induction fuel as [|fuel IH]; intros pos tags Hpos Hfuel.
  - lia.
  - simpl.
    destruct (QRegularExpression.match_ moduleWord project pos)
      as [range|] eqn:Hm; [|eauto].
    apply match_moduleWord in Hm. apply IH; lia.
Qed.

(** The loop of [addWordsFromModuleNamesAsTags] comes to its end within
    the iterations the model allows it. *)
Lemma addWords_loop_total project tags :
  is_Some (addWords_loop (S (String.length project)) project 0 tags).
Proof. apply addWords_loop_enough; lia. Qed.

(** ** Tags *)

Lemma m_tags_set_m_tags self ts : m_tags (set_m_tags self ts) = ts.
Proof. reflexivity. Qed.

Lemma set_m_tags_twice self ts ts' :
  set_m_tags (set_m_tags self ts) ts' = set_m_tags self ts'.
Proof. reflexivity. Qed.

Lemma set_m_tags_same self : set_m_tags self (m_tags self) = self.
Proof. destruct self; reflexivity. Qed.

(** C3.  The code does not do what the specification and the comment
    above [addWordsFromModuleNamesAsTags] say: for the project
    "QtQuick3D" the scan finds "Qt", "Quick3" and "D", because the
    digit class takes the 3 before the suffix is tried, and after the
    cleanup the tag set is {"quick3"}, not {"quick3d"}. *)
Theorem moduleTags_QtQuick3D (self : ManifestWriter)
    (Hproject : m_project self = "QtQuick3D") (Htags : m_tags self = ∅) :
  m_tags (addWordsFromModuleNamesAsTags self) = {[ "qt"; "quick3"; "d" ]}
  ∧ m_tags (cleanUpTags (addWordsFromModuleNamesAsTags self)) = {[ "quick3" ]}
  ∧ m_tags (cleanUpTags (addWordsFromModuleNamesAsTags self))
    ≠ {[ "quick3d" ]}.
Proof.
  assert (Hscan : m_tags (addWordsFromModuleNamesAsTags self)
                  = {[ "qt"; "quick3"; "d" ]}).
  { unfold addWordsFromModuleNamesAsTags. rewrite Hproject, Htags.
    assert (Hloop : addWords_loop (S (String.length "QtQuick3D")) "QtQuick3D"
                      0 ∅ = Some {[ "qt"; "quick3"; "d" ]})
      by (vm_compute; reflexivity).
    rewrite Hloop. reflexivity. }
  assert (Hclean : m_tags (cleanUpTags (addWordsFromModuleNamesAsTags self))
                   = {[ "quick3" ]}).
  { unfold cleanUpTags. rewrite m_tags_set_m_tags, Hscan.
    vm_compute. reflexivity. }
  split; [exact Hscan|]. split; [exact Hclean|].
  rewrite Hclean. intros Heq.
  assert (Hin : "quick3" ∈ ({[ "quick3d" ]} : gset string))
    by (rewrite <- Heq; apply elem_of_singleton; reflexivity).
  apply elem_of_singleton in Hin. discriminate.
Qed.

Lemma moduleTags_QtQuick3D_witness :
  let self :=
    newManifestWriter
      {| project := "QtQuick3D"; outputDir := "doc"; qhpNamespace := "org.qt";
         qhpVirtualFolder := "qtquick3d"; examplesInstallPath := "quick3d";
         manifestMetaFilters := [] |} [] in
  m_tags (cleanUpTags (addWordsFromModuleNamesAsTags self)) = {[ "quick3" ]}.
Proof.
  intros self.
  exact (proj1 (proj2 (moduleTags_QtQuick3D self eq_refl eq_refl))).
Defined.

(** The suffix is fused where no digit comes before it. *)
Example moduleTags_QtOpenGL :
  addWords_loop 9 "QtOpenGL" 0 ∅ = Some {[ "qt"; "opengl" ]}.
Proof. vm_compute. reflexivity. Qed.

Lemma at0_not_paren t :
  QString.startsWith t "(" = false → Ascii.eqb (QString.at0 t) "(" = false.
Proof.
  unfold QString.startsWith. destruct t as [|c t]; simpl; [reflexivity|].
  destruct (ascii_dec "(" c) as [<-|Hne].
  - destruct t; discriminate.
  - intros _. apply Ascii.eqb_neq. congruence.
Qed.

(** A tag that the cleanup keeps and that has no bracket in front and
    no colon at its end is kept as it is by another cleanup. *)
Lemma cleanUpTag_again tag t :
  cleanUpTag tag = Some t →
  QString.startsWith t "(" = false → QString.endsWith t ":" = false →
  cleanUpTag t = Some t.
Proof.
  unfold cleanUpTag at 1.
  set (t1 := if Ascii.eqb (QString.at0 tag) "(" then _ else _).
  set (t2 := if QString.endsWith t1 ":" then _ else _).
  destruct (_ || _) eqn:Hrej; [discriminate|].
  intros [= <-] Hparen Hcolon.
  unfold cleanUpTag. rewrite (at0_not_paren _ Hparen), Hcolon, Hrej.
  reflexivity.
Qed.

(** C2, as the code has it.  Cleaning up a second time changes nothing
    when no tag of the cleaned set starts with "(" or ends with ":". *)
Theorem cleanUpTags_idempotent_stripped (self : ManifestWriter)
    (Hstripped : ∀ t, t ∈ m_tags (cleanUpTags self) →
                      QString.startsWith t "(" = false
                      ∧ QString.endsWith t ":" = false) :
  cleanUpTags (cleanUpTags self) = cleanUpTags self.
Proof.
  unfold cleanUpTags in *. rewrite m_tags_set_m_tags in *.
  rewrite set_m_tags_twice. f_equal.
  apply set_eq. intros t. rewrite !elem_of_set_omap. split.
  - intros (u & Hu & Hut).
    destruct (Hstripped u Hu) as [Hp Hc].
    apply elem_of_set_omap in Hu as (x & Hx & Hxu).
    rewrite (cleanUpTag_again x u Hxu Hp Hc) in Hut.
    injection Hut as <-. eauto.
  - intros (x & Hx & Hxt).
    assert (Ht : t ∈ (set_omap cleanUpTag (m_tags self) : gset string))
      by (apply elem_of_set_omap; eauto).
    destruct (Hstripped t Ht) as [Hp Hc].
    exists t. split; [exact Ht|]. apply (cleanUpTag_again x t Hxt Hp Hc).
Qed.

(** C2, as the specification states it, fails: a cleanup takes one
    colon from "ab::", the next one takes the other. *)
Lemma cleanUpTags_not_idempotent :
  let self :=
    set_m_tags
      (newManifestWriter
         {| project := "QtQuick"; outputDir := "doc"; qhpNamespace := "org.qt";
            qhpVirtualFolder := "qtquick"; examplesInstallPath := "quick";
            manifestMetaFilters := [] |} [])
      {[ "ab::" ]} in
  m_tags (cleanUpTags self) = {[ "ab:" ]}
  ∧ m_tags (cleanUpTags (cleanUpTags self)) = {[ "ab" ]}
  ∧ cleanUpTags (cleanUpTags self) ≠ cleanUpTags self.
Proof.
  intros self.
  assert (H1 : m_tags (cleanUpTags self) = {[ "ab:" ]})
    by (vm_compute; reflexivity).
  assert (H2 : m_tags (cleanUpTags (cleanUpTags self)) = {[ "ab" ]})
    by (vm_compute; reflexivity).
  split; [exact H1|]. split; [exact H2|].
  intros Heq. rewrite Heq, H1 in H2.
  assert (Hin : "ab:" ∈ ({[ "ab" ]} : gset string))
    by (rewrite <- H2; apply elem_of_singleton; reflexivity).
  apply elem_of_singleton in Hin. discriminate.
Qed.

(** ** Attributes and tags from the filter rules *)

Lemma newAttributes_app used l1 l2 :
  newAttributes used (l1 ++ l2)
  = newAttributes used l1
    ++ newAttributes (used ++ (newAttributes used l1).*1) l2.
Proof.
  revert used. induction l1 as [|a l1 IH]; intros used; simpl.
  - rewrite app_nil_r. reflexivity.
  - case_bool_decide; [apply IH|].
    rewrite IH. simpl. rewrite <- app_assoc. reflexivity.
Qed.

Lemma foldl_writeFilterAttribute attrs used writer :
  foldl writeFilterAttribute (used, writer) attrs
  = (used ++ (newAttributes used attrs).*1,
     writer ++ attributeTokens (newAttributes used attrs)).
Proof.
  revert used writer. induction attrs as [|a attrs IH]; intros used writer.
  - simpl. rewrite !app_nil_r. reflexivity.
  - cbn [foldl newAttributes]. unfold writeFilterAttribute at 2.
    case_bool_decide; simpl negb; cbv iota.
    + apply IH.
    + rewrite IH. unfold writeAttribute, writeToken, attributeTokens.
      rewrite fmap_cons, <- !app_assoc. reflexivity.
Qed.

Lemma applyFilterName_eq fullName index self used writer name :
  applyFilterName fullName index (self, used, writer) name
  = let attrs := if nameMatches name fullName then attributes index else [] in
    (set_m_tags self
       (m_tags self ∪ (if nameMatches name fullName then tags index else ∅)),
     used ++ (newAttributes used attrs).*1,
     writer ++ attributeTokens (newAttributes used attrs)).
Proof.
  unfold applyFilterName. destruct (nameMatches name fullName); simpl.
  - rewrite foldl_writeFilterAttribute. reflexivity.
  - rewrite (right_id_L ∅ (∪)), set_m_tags_same, !app_nil_r. reflexivity.
Qed.

Lemma applyFilter_names fullName index l self used writer :
  foldl (applyFilterName fullName index) (self, used, writer) l
  = let attrs :=
      flat_map (fun name =>
                  if nameMatches name fullName then attributes index else [])
               l in
    (set_m_tags self
       (m_tags self
        ∪ (if existsb (fun name => nameMatches name fullName) l
           then tags index else ∅)),
     used ++ (newAttributes used attrs).*1,
     writer ++ attributeTokens (newAttributes used attrs)).
Proof.
  revert self used writer. induction l as [|name l IH]; intros self used writer.
  - simpl. rewrite (right_id_L ∅ (∪)), set_m_tags_same, !app_nil_r.
    reflexivity.
  - cbn [foldl flat_map existsb]. rewrite applyFilterName_eq. cbv zeta.
    rewrite IH. cbv zeta.
    rewrite set_m_tags_twice, m_tags_set_m_tags, newAttributes_app.
    unfold attributeTokens. rewrite !fmap_app, <- !app_assoc.
    f_equal. f_equal.
    destruct (nameMatches name fullName); simpl.
    + destruct (existsb _ l).
      * rewrite <- (assoc_L (∪)), (idemp_L (∪)). reflexivity.
      * rewrite (right_id_L ∅ (∪)). reflexivity.
    + rewrite (right_id_L ∅ (∪)). reflexivity.
Qed.

Lemma applyFilter_eq fullName index self used writer :
  applyFilter fullName (self, used, writer) index
  = let attrs := visitedAttributes fullName [index] in
    (set_m_tags self (m_tags self ∪ appliedTags fullName [index]),
     used ++ (newAttributes used attrs).*1,
     writer ++ attributeTokens (newAttributes used attrs)).
Proof.
  unfold applyFilter, visitedAttributes, appliedTags, ruleMatches.
  rewrite applyFilter_names. simpl.
  rewrite app_nil_r, (right_id_L ∅ (∪)). reflexivity.
Qed.

Lemma foldl_applyFilter fullName filters self used writer :
  foldl (applyFilter fullName) (self, used, writer) filters
  = let attrs := visitedAttributes fullName filters in
    (set_m_tags self (m_tags self ∪ appliedTags fullName filters),
     used ++ (newAttributes used attrs).*1,
     writer ++ attributeTokens (newAttributes used attrs)).
Proof.
  revert self used writer.
  induction filters as [|index filters IH]; intros self used writer.
  - simpl. unfold appliedTags. simpl.
    rewrite (right_id_L ∅ (∪)), set_m_tags_same, !app_nil_r. reflexivity.
  - cbn [foldl]. rewrite applyFilter_eq. cbv zeta. rewrite IH. cbv zeta.
    rewrite set_m_tags_twice, m_tags_set_m_tags.
    change (visitedAttributes fullName (index :: filters))
      with (flat_map (fun name =>
                        if nameMatches name fullName then attributes index
                        else []) (names index)
            ++ visitedAttributes fullName filters).
    change (visitedAttributes fullName [index])
      with (flat_map (fun name =>
                        if nameMatches name fullName then attributes index
                        else []) (names index) ++ []).
    rewrite app_nil_r, newAttributes_app.
    unfold attributeTokens. rewrite !fmap_app, <- !app_assoc.
    f_equal. f_equal. unfold appliedTags. simpl.
    rewrite (right_id_L ∅ (∪)), (assoc_L (∪)). reflexivity.
Qed.

(** What [processManifestMetaContent] does with pointers that are not
    null. *)
Lemma processManifestMetaContent_eq self fullName used writer :
  processManifestMetaContent self fullName (Some used) (Some writer)
  = let written :=
      newAttributes used
        (visitedAttributes fullName (m_manifestMetaContent self)) in
    (set_m_tags self
       (m_tags self ∪ appliedTags fullName (m_manifestMetaContent self)),
     Some (used ++ written.*1),
     Some (writer ++ attributeTokens written)).
Proof.
  unfold processManifestMetaContent. rewrite foldl_applyFilter. reflexivity.
Qed.

Lemma firstValue_cons key a attrs :
  firstValue key (a :: attrs)
  = if decide (attrName a = key) then Some (attrValue a)
    else firstValue key attrs.
Proof.
  unfold firstValue. rewrite filter_cons.
  destruct (decide (attrName a = key)); reflexivity.
Qed.

Lemma firstValue_app key l1 l2 :
  firstValue key (l1 ++ l2)
  = match firstValue key l1 with
    | Some v => Some v
    | None => firstValue key l2
    end.
Proof.
  induction l1 as [|a l1 IH]; [reflexivity|].
  rewrite <- app_comm_cons, !firstValue_cons.
  destruct (decide (attrName a = key)); [reflexivity|exact IH].
Qed.

Lemma newAttributes_fresh used attrs key :
  key ∈ (newAttributes used attrs).*1 → key ∉ used.
Proof.
  revert used. induction attrs as [|a attrs IH]; intros used; simpl.
  - intros H. apply elem_of_nil in H as [].
  - case_bool_decide as Hused; [apply IH|].
    rewrite fmap_cons, elem_of_cons. simpl. intros [->|Hin]; [exact Hused|].
    apply IH in Hin. rewrite elem_of_app in Hin. tauto.
Qed.

Lemma newAttributes_NoDup used attrs :
  NoDup used → NoDup (used ++ (newAttributes used attrs).*1).
Proof.
  revert used. induction attrs as [|a attrs IH]; intros used Hused; simpl.
  - rewrite app_nil_r. exact Hused.
  - case_bool_decide as Hin; [apply IH, Hused|].
    rewrite fmap_cons. simpl.
    rewrite (cons_middle (attrName a) used), (assoc_L (++)).
    apply IH. apply NoDup_app. split; [exact Hused|]. split.
    + intros x Hx Hx'. apply list_elem_of_singleton in Hx' as ->. tauto.
    + apply NoDup_singleton.
Qed.

(** A key that was not used before is written once, with the value of
    its first specification; a key that was used is not written. *)
Lemma newAttributes_first used attrs key value :
  (key, value) ∈ newAttributes used attrs
  ↔ (key ∉ used) ∧ firstValue key attrs = Some value.
Proof.
  revert used. induction attrs as [|a attrs IH]; intros used; simpl.
  - rewrite elem_of_nil. unfold firstValue. simpl. naive_solver.
  - rewrite firstValue_cons. case_bool_decide as Hin.
    + rewrite IH. destruct (decide (attrName a = key)) as [<-|]; naive_solver.
    + rewrite elem_of_cons, IH, elem_of_app, list_elem_of_singleton.
      destruct (decide (attrName a = key)) as [<-|]; naive_solver.
Qed.

Lemma firstValue_visited_rule key fullName index l :
  firstValue key
    (flat_map (fun name =>
                 if nameMatches name fullName then attributes index else []) l)
  = firstValue key
      (if existsb (fun name => nameMatches name fullName) l
       then attributes index else []).
Proof.
  induction l as [|name l IH]; [reflexivity|].
  cbn [flat_map existsb]. rewrite firstValue_app, IH.
  destruct (nameMatches name fullName); simpl; [|reflexivity].
  destruct (firstValue key (attributes index)) eqn:Hv; [reflexivity|].
  destruct (existsb _ l); [exact Hv|reflexivity].
Qed.

(** Visiting a rule once more for each further matching name does not
    change which specification of a key comes first. *)
Lemma firstValue_visited key fullName filters :
  firstValue key (visitedAttributes fullName filters)
  = firstValue key (configuredAttributes fullName filters).
Proof.
  induction filters as [|index filters IH]; [reflexivity|].
  unfold visitedAttributes, configuredAttributes in *. cbn [flat_map].
  rewrite !firstValue_app, IH, firstValue_visited_rule. reflexivity.
Qed.

(** ** One example element *)

Lemma tagsOnly_addWords : tagsOnly addWordsFromModuleNamesAsTags.
Proof.
  intros self. unfold addWordsFromModuleNamesAsTags.
  destruct (addWords_loop _ _ _ _) as [ts|]; [eauto|].
  exists (m_tags self). symmetry. apply set_m_tags_same.
Qed.

Lemma tagsOnly_includeTags example :
  tagsOnly (fun self => includeTagsAddedWithMetaCommand self example).
Proof.
  intros self. unfold includeTagsAddedWithMetaCommand.
  destruct example as [example|];
    [|exists (m_tags self); symmetry; apply set_m_tags_same].
  destruct (metaTagMap example) as [m|];
    [|exists (m_tags self); symmetry; apply set_m_tags_same].
  generalize (multiMapValues "tag" m). intros l. revert self.
  induction l as [|tag l IH]; intros self; simpl.
  - exists (m_tags self). symmetry. apply set_m_tags_same.
  - destruct (IH (set_m_tags self
                    (m_tags self
                     ∪ list_to_set (QString.split "," (QString.toLower tag)))))
      as [ts Hts].
    exists ts. rewrite Hts. apply set_m_tags_twice.
Qed.

Lemma tagsOnly_addTitleWords example :
  tagsOnly (fun self => addTitleWordsToTags self example).
Proof.
  intros self. unfold addTitleWordsToTags.
  destruct example as [example|]; [eauto|].
  exists (m_tags self). symmetry. apply set_m_tags_same.
Qed.

Lemma tagsOnly_cleanUpTags : tagsOnly cleanUpTags.
Proof. intros self. unfold cleanUpTags. eauto. Qed.

Lemma writeDescription_app writer example :
  writeDescription writer example = writer ++ writeDescription [] example.
Proof.
  unfold writeDescription, writeEndElement, writeCDATA, writeStartElement,
    writeToken.
  destruct (negb _); simpl; rewrite <- !app_assoc; reflexivity.
Qed.

Lemma writeDescription_nil example :
  writeDescription [] example
  = [StartElement "description";
     CDATA (if String.eqb (briefText example) ""
            then "No description available" else briefText example);
     EndElement].
Proof.
  unfold writeDescription. destruct (String.eqb (briefText example) "");
    reflexivity.
Qed.

Lemma writeFilesToOpen_app writer installPath (filesToOpen : QMap.t string) :
  writeFilesToOpen writer installPath filesToOpen
  = writer ++ writeFilesToOpen [] installPath filesToOpen.
Proof.
  destruct filesToOpen as [|e rest].
  - unfold writeFilesToOpen. simpl. rewrite app_nil_r. reflexivity.
  - rewrite !writeFilesToOpen_cons. reflexivity.
Qed.

(** [writeTagsElement] with a writer: the element for the tag set, and
    an empty tag set afterwards. *)
Lemma writeTagsElement_eq self writer :
  writeTagsElement self (Some writer)
  = (set_m_tags self ∅, Some (writer ++ tagsElement (m_tags self))).
Proof.
  unfold writeTagsElement, tagsElement. case_bool_decide as Hempty.
  - rewrite app_nil_r, <- Hempty, set_m_tags_same. reflexivity.
  - unfold writeEndElement, writeCharacters, writeStartElement, writeToken.
    rewrite <- !app_assoc. reflexivity.
Qed.

(** What one pass through the loop body leaves: the writer object with
    an empty tag set, the tokens of one element after those written
    before, and the warnings after those issued before. *)
Lemma writeExample_eq fileBase element self writer warned example :
  writeExample fileBase element (self, writer, warned) example
  = let fixed := fixedAttributes fileBase self example in
    let written := filterAttributes fileBase self example in
    (set_m_tags self ∅,
     writer
     ++ [StartElement element]
     ++ attributeTokens (fixed ++ written)
     ++ writeDescription [] example
     ++ tagsElement (exampleTags self example)
     ++ writeFilesToOpen [] (retrieveExampleInstallationPath self example)
          (getFilesToOpen (files example)
             (QString.mid (QString.lastIndexOf "/" (name example) + 1)
                          (name example)))
     ++ [EndElement],
     warned ++ warnAboutUnusedAttributes (fixed.*1 ++ written.*1)
                                         (name example)).
Proof.
  cbv zeta. unfold writeExample, exampleTags, filterAttributes.
  set (installPath := retrieveExampleInstallationPath self example).
  set (fullName := exampleFullName self example).
  change (m_project self +:+ "/" +:+ title example) with fullName.
  set (self1 := set_m_tags self (m_tags self ∪ appliedTags fullName _)).
  destruct (tagsOnly_addWords self1) as [ts1 H1].
  destruct (tagsOnly_includeTags (Some example)
              (addWordsFromModuleNamesAsTags self1)) as [ts2 H2].
  destruct (tagsOnly_addTitleWords (Some example)
              (includeTagsAddedWithMetaCommand
                 (addWordsFromModuleNamesAsTags self1) (Some example)))
    as [ts3 H3].
  destruct (tagsOnly_cleanUpTags
              (addTitleWordsToTags
                 (includeTagsAddedWithMetaCommand
                    (addWordsFromModuleNamesAsTags self1) (Some example))
                 (Some example))) as [ts4 H4].
  assert (Hself : set_m_tags
            (cleanUpTags
               (addTitleWordsToTags
                  (includeTagsAddedWithMetaCommand
                     (addWordsFromModuleNamesAsTags self1) (Some example))
                  (Some example))) ∅ = set_m_tags self ∅).
  { rewrite H4, H3, H2, H1. reflexivity. }
  unfold fixedAttributes. fold installPath.
  destruct (String.eqb (projectFile example) "");
    destruct (String.eqb (imageFileName example) ""); simpl negb; cbv iota;
    rewrite processManifestMetaContent_eq; cbv zeta; fold fullName;
    fold self1; unfold deref; simpl default;
    rewrite writeTagsElement_eq, Hself; simpl default;
    rewrite writeFilesToOpen_app, writeDescription_app;
    unfold writeEndElement, writeAttribute, writeStartElement, writeToken,
      attributeTokens;
    rewrite ?fmap_app; simpl; rewrite <- ?app_assoc; simpl;
    reflexivity.
Qed.

Lemma fixedAttributes_keys fileBase self example :
  (fixedAttributes fileBase self example).*1
  = ["name"; "docUrl"]
    ++ (if String.eqb (projectFile example) "" then [] else ["projectPath"])
    ++ (if String.eqb (imageFileName example) "" then [] else ["imageUrl"]).
Proof.
  unfold fixedAttributes.
  destruct (String.eqb (projectFile example) "");
    destruct (String.eqb (imageFileName example) ""); reflexivity.
Qed.

Lemma fixedAttributes_NoDup fileBase self example :
  NoDup (fixedAttributes fileBase self example).*1.
Proof.
  rewrite fixedAttributes_keys.
  destruct (String.eqb (projectFile example) "");
    destruct (String.eqb (imageFileName example) "");
    apply (bool_decide_unpack _); vm_compute; exact I.
Qed.

Lemma firstValue_not_configured key fullName filters :
  (∀ r a, r ∈ filters → ruleMatches fullName r = true → a ∈ attributes r →
          attrName a ≠ key) →
  firstValue key (configuredAttributes fullName filters) = None.
Proof.
  induction filters as [|r filters IH]; intros Hnone; [reflexivity|].
  unfold configuredAttributes in *. cbn [flat_map].
  rewrite firstValue_app, IH.
  - destruct (ruleMatches fullName r) eqn:Hr; [|reflexivity].
    assert (Hr' : ∀ a, a ∈ attributes r → attrName a ≠ key)
      by (intros a; apply (Hnone r); [apply elem_of_cons; auto|exact Hr]).
    clear -Hr'. induction (attributes r) as [|a l IHl]; [reflexivity|].
    rewrite firstValue_cons.
    destruct (decide (attrName a = key)) as [Heq|_].
    + destruct (Hr' a); [apply elem_of_cons; auto|exact Heq].
    + apply IHl. intros b Hb. apply Hr'. apply elem_of_cons. auto.
  - intros r' a Hin. apply Hnone. apply elem_of_cons. auto.
Qed.

Lemma firstValue_single_valued a1 attrs :
  a1 ∈ attrs →
  (∀ a, a ∈ attrs → attrName a = attrName a1 → attrValue a = attrValue a1) →
  firstValue (attrName a1) attrs = Some (attrValue a1).
Proof.
  induction attrs as [|b attrs IH]; [intros H; apply elem_of_nil in H as []|].
  intros Hin Hsame. rewrite firstValue_cons.
  destruct (decide (attrName b = attrName a1)) as [Heq|Hne].
  - rewrite (Hsame b); [reflexivity|apply elem_of_cons; auto|exact Heq].
  - apply elem_of_cons in Hin as [->|Hin]; [congruence|].
    apply IH; [exact Hin|]. intros a Ha. apply Hsame, elem_of_cons. auto.
Qed.

(** Two matching rules that give one key different values: the value of
    the rule that comes first in the configuration is written (when the
    writer has not set the key itself), the other value is not. *)
Lemma first_matching_rule_wins fileBase self example
    before first between second behind a1 a2 :
  let fullName := exampleFullName self example in
  m_manifestMetaContent self
  = before ++ first :: between ++ second :: behind →
  ruleMatches fullName first = true → ruleMatches fullName second = true →
  (∀ r a, r ∈ before → ruleMatches fullName r = true → a ∈ attributes r →
          attrName a ≠ attrName a1) →
  a1 ∈ attributes first →
  (∀ a, a ∈ attributes first → attrName a = attrName a1 →
        attrValue a = attrValue a1) →
  a2 ∈ attributes second → attrName a2 = attrName a1 →
  attrValue a2 ≠ attrValue a1 →
  (attrName a1 ∉ (fixedAttributes fileBase self example).*1 →
   (attrName a1, attrValue a1) ∈ filterAttributes fileBase self example)
  ∧ (attrName a1, attrValue a2) ∉ filterAttributes fileBase self example.
Proof.
  intros fullName Hrules Hfirst _ Hbefore Ha1 Hsame _ _ Hdiff.
  assert (Hvalue :
    firstValue (attrName a1)
      (configuredAttributes fullName (m_manifestMetaContent self))
    = Some (attrValue a1)).
  { rewrite Hrules. unfold configuredAttributes.
    rewrite flat_map_app. cbn [flat_map]. rewrite Hfirst, !firstValue_app.
    fold (configuredAttributes fullName before).
    rewrite (firstValue_not_configured _ _ _ Hbefore).
    rewrite (firstValue_single_valued a1 _ Ha1 Hsame). reflexivity. }
  unfold filterAttributes. fold fullName. split.
  - intros Hfresh. apply newAttributes_first.
    rewrite firstValue_visited. auto.
  - rewrite newAttributes_first, firstValue_visited, Hvalue.
    intros [_ Heq]. congruence.
Qed.

(** C6.  The start tag of an example element carries the attributes
    that the writer sets itself ("name", "docUrl" and, when they are
    there, "projectPath" and "imageUrl") and then those from the filter
    rules.  No key is written twice, so a rule never writes a key that
    is already there; a key from the rules has the value of its first
    specification among the matching rules, in the configured order of
    the rules; and of two matching rules that give a key different
    values, only the value of the first is written. *)
Theorem attributes_first_writer_wins (fileBase : ExampleNode → string)
    (element : string) (self : ManifestWriter) (writer : QXmlStreamWriter)
    (warned : list string) (example : ExampleNode) :
  let fullName := exampleFullName self example in
  let fixed := fixedAttributes fileBase self example in
  let written := filterAttributes fileBase self example in
  let rules := configuredAttributes fullName (m_manifestMetaContent self) in
  (∃ rest,
      (writeExample fileBase element (self, writer, warned) example).1.2
      = writer ++ [StartElement element]
        ++ attributeTokens (fixed ++ written)
        ++ [StartElement "description"] ++ rest)
  ∧ fixed.*1
    = ["name"; "docUrl"]
      ++ (if String.eqb (projectFile example) "" then [] else ["projectPath"])
      ++ (if String.eqb (imageFileName example) "" then [] else ["imageUrl"])
  ∧ NoDup (fixed ++ written).*1
  ∧ (∀ key value,
       (key, value) ∈ written
       ↔ (key ∉ fixed.*1) ∧ firstValue key rules = Some value)
  ∧ (∀ before first between second behind a1 a2,
       m_manifestMetaContent self
       = before ++ first :: between ++ second :: behind →
       ruleMatches fullName first = true →
       ruleMatches fullName second = true →
       (∀ r a, r ∈ before → ruleMatches fullName r = true →
               a ∈ attributes r → attrName a ≠ attrName a1) →
       a1 ∈ attributes first →
       (∀ a, a ∈ attributes first → attrName a = attrName a1 →
             attrValue a = attrValue a1) →
       a2 ∈ attributes second → attrName a2 = attrName a1 →
       attrValue a2 ≠ attrValue a1 →
       (attrName a1 ∉ fixed.*1 → (attrName a1, attrValue a1) ∈ written)
       ∧ (attrName a1, attrValue a2) ∉ written).
Proof.
  cbv zeta. split; [|split; [|split; [|split]]].
  - rewrite writeExample_eq. cbv zeta. cbn [fst snd].
    rewrite writeDescription_nil. eexists. do 3 f_equal.
  - apply fixedAttributes_keys.
  - rewrite fmap_app. apply newAttributes_NoDup, fixedAttributes_NoDup.
  - intros key value. unfold filterAttributes.
    rewrite newAttributes_first, firstValue_visited. reflexivity.
  - intros before first between second behind a1 a2.
    apply first_matching_rule_wins.
Qed.

Lemma attributes_first_writer_wins_witness :
  let rules :=
    [ {| names := ["*"]; attributes := ["category:first"; "name:other"];
         tags := ∅ |};
      {| names := ["QtQuick/*"]; attributes := ["category:second"; "isTop"];
         tags := ∅ |} ] in
  let clocks :=
    {| name := "quick/clocks"; title := "Clocks";
       projectFile := "clocks.pro"; imageFileName := "";
       files := ["clocks/clocks.qml"; "clocks/main.cpp"];
       briefText := ""; metaTagMap := None |} in
  let self :=
    newManifestWriter
      {| project := "QtQuick"; outputDir := "doc"; qhpNamespace := "org.qt";
         qhpVirtualFolder := "qtquick"; examplesInstallPath := "quick";
         manifestMetaFilters := rules |} [clocks] in
  ("category", "first") ∈ filterAttributes name self clocks
  ∧ ("category", "second") ∉ filterAttributes name self clocks.
Proof.
  intros rules clocks self.
  pose proof (attributes_first_writer_wins name "example" self [] [] clocks)
    as (_ & _ & _ & _ & Hfirst).
  destruct (Hfirst [] {| names := ["*"];
                         attributes := ["category:first"; "name:other"];
                         tags := ∅ |}
                   [] {| names := ["QtQuick/*"];
                         attributes := ["category:second"; "isTop"];
                         tags := ∅ |}
                   [] "category:first" "category:second")
    as [Hin Hout].
  - reflexivity.
  - reflexivity.
  - reflexivity.
  - intros r a Hr. apply elem_of_nil in Hr as [].
  - apply elem_of_cons. left. reflexivity.
  - intros a Ha. apply elem_of_cons in Ha as [->|Ha]; [reflexivity|].
    apply list_elem_of_singleton in Ha as ->. discriminate.
  - apply elem_of_cons. left. reflexivity.
  - reflexivity.
  - discriminate.
  - split; [|exact Hout]. apply Hin.
    rewrite fixedAttributes_keys. cbn.
    rewrite !elem_of_cons, elem_of_nil.
    intros [H|[H|[H|[]]]]; discriminate.
Defined.

(** Two matching rules with different values for "category": the first
    rule's value is written, the second rule's is not, and "name" is
    not written again. *)
Example attributes_two_rules :
  let rules :=
    [ {| names := ["*"]; attributes := ["category:first"; "name:other"];
         tags := ∅ |};
      {| names := ["QtQuick/*"]; attributes := ["category:second"; "isTop"];
         tags := ∅ |} ] in
  processManifestMetaContent
    (newManifestWriter
       {| project := "QtQuick"; outputDir := "doc"; qhpNamespace := "org.qt";
          qhpVirtualFolder := "qtquick"; examplesInstallPath := "quick";
          manifestMetaFilters := rules |} [])
    "QtQuick/Clocks" (Some ["name"; "docUrl"]) (Some [])
  = (newManifestWriter
       {| project := "QtQuick"; outputDir := "doc"; qhpNamespace := "org.qt";
          qhpVirtualFolder := "qtquick"; examplesInstallPath := "quick";
          manifestMetaFilters := rules |} [],
     Some ["name"; "docUrl"; "category"; "isTop"],
     Some [Attribute "category" "first"; Attribute "isTop" "true"]).
Proof. vm_compute. reflexivity. Qed.

Lemma firstValue_configured a attrs :
  a ∈ attrs → is_Some (firstValue (attrName a) attrs).
Proof.
  induction attrs as [|b attrs IH]; [intros H; apply elem_of_nil in H as []|].
  rewrite elem_of_cons, firstValue_cons.
  destruct (decide (attrName b = attrName a)); [eauto|].
  intros [->|Hin]; [congruence|auto].
Qed.

Lemma configuredAttributes_elem fullName filters index a :
  index ∈ filters → ruleMatches fullName index = true → a ∈ attributes index →
  a ∈ configuredAttributes fullName filters.
Proof.
  intros Hindex Hmatch Ha. unfold configuredAttributes.
  apply list_elem_of_In, in_flat_map. exists index.
  rewrite Hmatch, <- !list_elem_of_In. auto.
Qed.

Lemma appliedTags_subseteq fullName filters index :
  index ∈ filters → ruleMatches fullName index = true →
  tags index ⊆ appliedTags fullName filters.
Proof.
  intros Hindex Hmatch t Ht. unfold appliedTags.
  apply elem_of_union_list. exists (tags index). split; [|exact Ht].
  apply list_elem_of_fmap. exists index. rewrite Hmatch. auto.
Qed.

(** C10.  A filter name that starts with "*" matches every full name,
    whatever follows the "*", and its rule is applied: the tags of the
    rule are added to the tag set; the attributes written are appended
    to the token stream and their keys to the used attributes; a key is
    written exactly when it was not used before, with the value of its
    first specification among the matching rules; so for every
    attribute of the rule the key was used before or a token with that
    key is written, and it carries the rule's own value when the rule's
    specification is the first one for the key. *)
Theorem leading_star_matches_all (self : ManifestWriter)
    (index : ManifestMetaFilter) (post fullName : string)
    (usedAttributes : list string) (writer : QXmlStreamWriter)
    (Hindex : index ∈ m_manifestMetaContent self)
    (Hname : "*" +:+ post ∈ names index) :
  let rules :=
    configuredAttributes fullName (m_manifestMetaContent self) in
  nameMatches ("*" +:+ post) fullName = true
  ∧ ∃ self' written,
      processManifestMetaContent self fullName (Some usedAttributes)
                                 (Some writer)
      = (self', Some (usedAttributes ++ written.*1),
         Some (writer ++ attributeTokens written))
      ∧ tags index ⊆ m_tags self'
      ∧ (∀ key value,
           (key, value) ∈ written
           ↔ (key ∉ usedAttributes) ∧ firstValue key rules = Some value)
      ∧ (∀ a, a ∈ attributes index →
              attrName a ∈ usedAttributes ++ written.*1)
      ∧ (∀ a, a ∈ attributes index →
              attrName a ∈ usedAttributes
              ∨ ∃ value,
                  Attribute (attrName a) value ∈ attributeTokens written)
      ∧ (∀ a, a ∈ attributes index → attrName a ∉ usedAttributes →
              firstValue (attrName a) rules = Some (attrValue a) →
              Attribute (attrName a) (attrValue a)
              ∈ attributeTokens written).
Proof.
  cbv zeta. split; [reflexivity|].
  assert (Hmatch : ruleMatches fullName index = true).
  { unfold ruleMatches. apply existsb_exists. exists ("*" +:+ post).
    split; [apply list_elem_of_In, Hname|reflexivity]. }
  rewrite processManifestMetaContent_eq. cbv zeta.
  set (written := newAttributes usedAttributes
                    (visitedAttributes fullName (m_manifestMetaContent self))).
  assert (Hwritten : ∀ key value,
    (key, value) ∈ written
    ↔ (key ∉ usedAttributes)
      ∧ firstValue key
          (configuredAttributes fullName (m_manifestMetaContent self))
        = Some value).
  { intros key value. unfold written.
    rewrite newAttributes_first, firstValue_visited. reflexivity. }
  assert (Hwrites : ∀ a, a ∈ attributes index →
    attrName a ∈ usedAttributes ∨ ∃ value, (attrName a, value) ∈ written).
  { intros a Ha.
    destruct (decide (attrName a ∈ usedAttributes)) as [|Hfresh]; [auto|].
    right.
    pose proof (configuredAttributes_elem fullName _ index a Hindex Hmatch Ha)
      as Hconf.
    apply firstValue_configured in Hconf as [v Hv].
    exists v. apply Hwritten. auto. }
  assert (Htoken : ∀ key value,
    (key, value) ∈ written → Attribute key value ∈ attributeTokens written).
  { intros key value Hin. unfold attributeTokens.
    apply list_elem_of_fmap. exists (key, value). auto. }
  exists (set_m_tags self
            (m_tags self ∪ appliedTags fullName (m_manifestMetaContent self))),
    written.
  split; [reflexivity|]. split; [|split; [exact Hwritten|split; [|split]]].
  - rewrite m_tags_set_m_tags. etransitivity; [|apply union_subseteq_r].
    exact (appliedTags_subseteq fullName _ index Hindex Hmatch).
  - intros a Ha. apply elem_of_app.
    destruct (Hwrites a Ha) as [Hused|[v Hv]]; [auto|]. right.
    apply list_elem_of_fmap. exists (attrName a, v). auto.
  - intros a Ha. destruct (Hwrites a Ha) as [Hused|[v Hv]]; [auto|].
    right. exists v. apply Htoken, Hv.
  - intros a Ha Hfresh Hfirst. apply Htoken, Hwritten. auto.
Qed.

Lemma leading_star_matches_all_witness :
  let rule :=
    {| names := ["*Widgets"]; attributes := ["isHighlighted"];
       tags := {[ "widgets" ]} |} in
  let self :=
    newManifestWriter
      {| project := "QtQuick"; outputDir := "doc"; qhpNamespace := "org.qt";
         qhpVirtualFolder := "qtquick"; examplesInstallPath := "quick";
         manifestMetaFilters := [rule] |} [] in
  nameMatches "*Widgets" "QtQuick/Clocks" = true
  ∧ ∃ self' written,
      processManifestMetaContent self "QtQuick/Clocks"
                                 (Some ["name"; "docUrl"]) (Some [])
      = (self', Some (["name"; "docUrl"] ++ written.*1),
         Some ([] ++ attributeTokens written))
      ∧ tags rule ⊆ m_tags self'
      ∧ Attribute "isHighlighted" "true" ∈ attributeTokens written.
Proof.
  intros rule self.
  destruct (leading_star_matches_all self rule "Widgets" "QtQuick/Clocks"
              ["name"; "docUrl"] [])
    as (Hmatch & self' & written & Hrun & Htags & _ & _ & _ & Hvalue).
  - apply list_elem_of_singleton. reflexivity.
  - apply list_elem_of_singleton. reflexivity.
  - split; [exact Hmatch|]. exists self', written.
    split; [exact Hrun|]. split; [exact Htags|].
    apply (Hvalue "isHighlighted").
    + apply list_elem_of_singleton. reflexivity.
    + rewrite !elem_of_cons, elem_of_nil. intros [H|[H|[]]]; discriminate.
    + reflexivity.
Defined.

(** What the rule of the example above writes. *)
Example leading_star_document :
  (processManifestMetaContent
     (newManifestWriter
        {| project := "QtQuick"; outputDir := "doc"; qhpNamespace := "org.qt";
           qhpVirtualFolder := "qtquick"; examplesInstallPath := "quick";
           manifestMetaFilters :=
             [ {| names := ["*Widgets"]; attributes := ["isHighlighted"];
                  tags := {[ "widgets" ]} |} ] |} [])
     "QtQuick/Clocks" (Some ["name"; "docUrl"]) (Some [])).2
  = Some [Attribute "isHighlighted" "true"].
Proof. reflexivity. Qed.

(** ** The loop over the examples *)

(** The loop with its [continue]s is the loop body run over the
    examples of the requested kind. *)
Lemma foldl_exampleStep fileBase demos element st examples :
  foldl (exampleStep fileBase demos element) st examples
  = foldl (writeExample fileBase element) st
          (filter (fun example => isDemo example = demos) examples).
Proof.
  revert st. induction examples as [|example examples IH]; intros st.
  - reflexivity.
  - cbn [foldl]. rewrite filter_cons. unfold exampleStep at 2.
    destruct (decide (isDemo example = demos)) as [Heq|Hne].
    + rewrite <- Heq in *. destruct (isDemo example); simpl; apply IH.
    + destruct demos, (isDemo example); try congruence; simpl; apply IH.
Qed.

Lemma foldl_writeExample_self fileBase element self writer warned examples :
  ∃ ts, (foldl (writeExample fileBase element) (self, writer, warned)
               examples).1.1
        = set_m_tags self ts.
Proof.
  revert self writer warned.
  induction examples as [|example examples IH]; intros self writer warned.
  - exists (m_tags self). simpl. symmetry. apply set_m_tags_same.
  - cbn [foldl]. rewrite writeExample_eq. cbv zeta.
    edestruct IH as [ts Hts]. rewrite Hts. eauto.
Qed.

Lemma foldl_writeExample_empty fileBase element self writer warned examples :
  m_tags self = ∅ →
  (foldl (writeExample fileBase element) (self, writer, warned) examples).1.1
  = self.
Proof.
  intros Hempty. revert writer warned.
  induction examples as [|example examples IH]; intros writer warned.
  - reflexivity.
  - cbn [foldl]. rewrite writeExample_eq. cbv zeta.
    rewrite <- Hempty at 1. rewrite set_m_tags_same. apply IH.
Qed.

Lemma generateManifestFile_self fileBase openForWriting self manifest
    element fx :
  m_tags self = ∅ →
  (generateManifestFile fileBase openForWriting self manifest element fx).1
  = self.
Proof.
  intros Hempty. unfold generateManifestFile.
  case_bool_decide; [reflexivity|].
  destruct (existsb _ _); [|reflexivity].
  destruct (openForWriting _); [|reflexivity].
  simpl negb. cbv iota. rewrite foldl_exampleStep.
  pose proof (foldl_writeExample_empty fileBase element self
    (writeStartElement manifest
       (writeAttribute "module" (m_project self)
          (writeStartElement "instructionals" (writeStartDocument []))))
    [] (filter (fun e => isDemo e = String.eqb manifest "demos")
               (exampleNodeMap self)) Hempty) as Hself.
  destruct (foldl _ _ _) as [[self' writer'] warned']. exact Hself.
Qed.

(** C9.  [writeTagsElement] with a writer leaves the tag set empty,
    whether it wrote the element or had nothing to write.  So for a
    writer object that starts with an empty tag set, as the constructor
    leaves it, the tag set is empty when the loop comes to an example,
    whatever examples came before, and again when it leaves it; the
    tokens written for the example are those written for it when it
    comes first; and the tag set is empty again when the manifest file
    is done. *)
Theorem tags_cleared_between_examples (fileBase : ExampleNode → string)
    (openForWriting : string → bool) (manifest : string) (fx : Effects)
    (demos : bool) (element : string) (self : ManifestWriter)
    (writer : QXmlStreamWriter) (warned : list string)
    (before : list ExampleNode) (example : ExampleNode)
    (Hempty : m_tags self = ∅) :
  let st :=
    foldl (exampleStep fileBase demos element) (self, writer, warned) before in
  (∀ other w, m_tags (writeTagsElement other (Some w)).1 = ∅)
  ∧ m_tags st.1.1 = ∅
  ∧ m_tags (writeExample fileBase element st example).1.1 = ∅
  ∧ (writeExample fileBase element st example).1.2
    = st.1.2 ++ (writeExample fileBase element (self, [], []) example).1.2
  ∧ m_tags (generateManifestFile fileBase openForWriting self manifest
                                 element fx).1 = ∅.
Proof.
  cbv zeta. rewrite foldl_exampleStep.
  pose proof (foldl_writeExample_empty fileBase element self writer warned
                (filter (fun e => isDemo e = demos) before) Hempty) as Hself.
  destruct (foldl _ _ _) as [[self' writer'] warned'].
  cbn [fst snd] in *. subst self'.
  split; [|split; [|split; [|split]]].
  - intros other w. rewrite writeTagsElement_eq. reflexivity.
  - exact Hempty.
  - rewrite writeExample_eq. reflexivity.
  - rewrite !writeExample_eq. reflexivity.
  - rewrite generateManifestFile_self by exact Hempty. exact Hempty.
Qed.

Lemma tags_cleared_between_examples_witness :
  let clocks :=
    {| name := "quick/clocks"; title := "Clocks Example";
       projectFile := "clocks.pro"; imageFileName := "";
       files := ["clocks/clocks.qml"; "clocks/main.cpp"];
       briefText := ""; metaTagMap := Some [("tag", "Time,QML")] |} in
  let self :=
    newManifestWriter
      {| project := "QtQuick"; outputDir := "doc"; qhpNamespace := "org.qt";
         qhpVirtualFolder := "qtquick"; examplesInstallPath := "quick";
         manifestMetaFilters := [] |} [clocks; clocks] in
  let st := foldl (exampleStep name false "example") (self, [], []) [clocks] in
  m_tags st.1.1 = ∅
  ∧ (writeExample name "example" st clocks).1.2
    = st.1.2 ++ (writeExample name "example" (self, [], []) clocks).1.2.
Proof.
  intros clocks self st.
  pose proof (tags_cleared_between_examples name (fun _ => true) "examples"
                noEffects false "example" self [] [] [clocks] clocks eq_refl)
    as (_ & H1 & _ & H2 & _).
  split; [exact H1|exact H2].
Defined.

(** ** The two manifests *)

Lemma generateManifestFile_eq fileBase openForWriting self manifest element fx :
  let demos := String.eqb manifest "demos" in
  let selected :=
    filter (fun example => isDemo example = demos) (exampleNodeMap self) in
  let outputFile :=
    m_outputDirectory self +:+ "/" +:+ manifest +:+ "-manifest.xml" in
  let opening :=
    [StartDocument; StartElement "instructionals";
     Attribute "module" (m_project self); StartElement manifest] in
  let st := foldl (writeExample fileBase element) (self, opening, []) selected in
  selected ≠ [] → openForWriting outputFile = true →
  generateManifestFile fileBase openForWriting self manifest element fx
  = (st.1.1,
     addOutput outputFile
       (manifestDocument fileBase self manifest element selected)
       (addWarnings st.2 fx)).
Proof.
  cbv zeta. intros Hselected Hopen.
  unfold generateManifestFile, manifestDocument.
  case_bool_decide as Hnil.
  { rewrite Hnil in Hselected. contradiction Hselected. reflexivity. }
  assert (Hproceed :
    existsb (fun example =>
               Bool.eqb (String.eqb manifest "demos") (isDemo example))
            (exampleNodeMap self) = true).
  { destruct (filter _ (exampleNodeMap self)) as [|e l] eqn:Hf;
      [congruence|].
    assert (He : e ∈ filter (fun example =>
                   isDemo example = String.eqb manifest "demos")
                   (exampleNodeMap self))
      by (rewrite Hf; apply elem_of_cons; auto).
    apply list_elem_of_filter in He as [He Hin].
    apply existsb_exists. exists e. split; [apply list_elem_of_In, Hin|].
    rewrite He. apply Bool.eqb_reflx. }
  rewrite Hproceed, Hopen. simpl negb. cbv iota.
  rewrite foldl_exampleStep.
  unfold writeEndDocument, writeEndElement, writeStartElement, writeAttribute,
    writeStartDocument, writeToken. simpl app.
  destruct (foldl _ _ _) as [[self' writer'] warned'].
  cbn [fst snd]. rewrite <- !app_assoc. reflexivity.
Qed.


Lemma writeExample_element fileBase element self writer warned example :
  (writeExample fileBase element (self, writer, warned) example).1
  = (set_m_tags self ∅,
     writer ++ exampleElement fileBase element self example).
Proof. rewrite writeExample_eq. reflexivity. Qed.
















(** The two documents of the example above. *)
Example manifests_sample :
  let clocks :=
    {| name := "quick/clocks"; title := "Clocks Example";
       projectFile := "clocks.pro"; imageFileName := "";
       files := ["clocks/clocks.qml"; "clocks/main.cpp"];
       briefText := ""; metaTagMap := None |} in
  let calqlatr :=
    {| name := "demos/calqlatr"; title := "Calqlatr";
       projectFile := "calqlatr.pro"; imageFileName := "calqlatr.png";
       files := ["calqlatr/main.cpp"];
       briefText := "A calculator"; metaTagMap := None |} in
  let self :=
    newManifestWriter
      {| project := "QtQuick"; outputDir := "doc"; qhpNamespace := "org.qt";
         qhpVirtualFolder := "qtquick"; examplesInstallPath := "quick";
         manifestMetaFilters := [] |} [calqlatr; clocks] in
  outputs (generateManifestFiles name (fun _ => true) self noEffects).2
  = [("doc/examples-manifest.xml",
      [StartDocument; StartElement "instructionals";
       Attribute "module" "QtQuick"; StartElement "examples";
       StartElement "example"; Attribute "name" "Clocks Example";
       Attribute "docUrl" "qthelp://org.qt/qtquick/quick/clocks.html";
       Attribute "projectPath" "quick/clocks.pro";
       StartElement "description"; CDATA "No description available";
       EndElement;
       StartElement "tags"; Characters "clocks,quick"; EndElement;
       StartElement "fileToOpen"; Characters "quick/clocks/main.cpp";
       EndElement;
       StartElement "fileToOpen"; Attribute "mainFile" "true";
       Characters "quick/clocks/clocks.qml"; EndElement;
       EndElement; EndElement; EndElement; EndDocument]);
     ("doc/demos-manifest.xml",
      [StartDocument; StartElement "instructionals";
       Attribute "module" "QtQuick"; StartElement "demos";
       StartElement "demo"; Attribute "name" "Calqlatr";
       Attribute "docUrl" "qthelp://org.qt/qtquick/demos/calqlatr.html";
       Attribute "projectPath" "quick/calqlatr.pro";
       Attribute "imageUrl" "qthelp://org.qt/qtquick/calqlatr.png";
       StartElement "description"; CDATA "A calculator"; EndElement;
       StartElement "tags"; Characters "calqlatr,quick"; EndElement;
       StartElement "fileToOpen"; Attribute "mainFile" "true";
       Characters "quick/calqlatr/main.cpp"; EndElement;
       EndElement; EndElement; EndElement; EndDocument])].
Proof. vm_compute. reflexivity. Qed.

Lemma cleanUpTags_idempotent_stripped_witness :
  let self :=
    set_m_tags
      (newManifestWriter
         {| project := "QtQuick"; outputDir := "doc"; qhpNamespace := "org.qt";
            qhpVirtualFolder := "qtquick"; examplesInstallPath := "quick";
            manifestMetaFilters := [] |} [])
      {[ "quick"; "(ab)"; "qt"; "cd:" ]} in
  cleanUpTags (cleanUpTags self) = cleanUpTags self.
Proof.
  intros self. apply cleanUpTags_idempotent_stripped.
  assert (Hclean : m_tags (cleanUpTags self) = {[ "quick"; "ab"; "cd" ]})
    by (vm_compute; reflexivity).
  intros t Ht. rewrite Hclean in Ht.
  rewrite !elem_of_union, !elem_of_singleton in Ht.
  destruct Ht as [[->| ->]| ->]; split; reflexivity.
Defined.

(** * Further properties of the writer *)

(** ** More on strings *)

Lemma string_app_assoc (a b c : string) : (a +:+ b) +:+ c = a +:+ b +:+ c.
Proof.
  induction a as [|x a IH]; [reflexivity|].
  change (String x ((a +:+ b) +:+ c) = String x (a +:+ b +:+ c)).
  f_equal. exact IH.
Qed.

Lemma string_app_nil_r (a : string) : a +:+ "" = a.
Proof.
  induction a as [|x a IH]; [reflexivity|].
  change (String x (a +:+ "") = String x a). f_equal. exact IH.
Qed.

Lemma string_app_length (a b : string) :
  String.length (a +:+ b) = String.length a + String.length b.
Proof.
  induction a as [|x a IH]; [reflexivity|].
  change (S (String.length (a +:+ b)) = S (String.length a + String.length b)).
  f_equal. exact IH.
Qed.

Lemma rev_app_append s acc : String.rev_app s acc = String.rev s +:+ acc.
Proof.
  unfold String.rev. revert acc.
  induction s as [|c s IH]; intros acc; [reflexivity|].
  change (String.rev_app s (String c acc)
          = String.rev_app s (String c "") +:+ acc).
  rewrite IH, (IH (String c "")), string_app_assoc. reflexivity.
Qed.

Lemma rev_append (a b : string) :
  String.rev (a +:+ b) = String.rev b +:+ String.rev a.
Proof.
  induction a as [|x a IH].
  - change ("" +:+ b) with b. rewrite string_app_nil_r. reflexivity.
  - change (String x a +:+ b) with (String x (a +:+ b)).
    unfold String.rev at 1 3.
    change (String.rev_app (a +:+ b) (String x "")
            = String.rev b +:+ String.rev_app a (String x "")).
    rewrite !rev_app_append, IH, string_app_assoc. reflexivity.
Qed.

Lemma prefix_app (p rest : string) : String.prefix p (p +:+ rest) = true.
Proof.
  induction p as [|x p IH].
  - destruct rest; reflexivity.
  - change (String.prefix (String x p) (String x (p +:+ rest)) = true).
    simpl. destruct (ascii_dec x x); [exact IH|congruence].
Qed.

Lemma endsWith_app (s p : string) : QString.endsWith (s +:+ p) p = true.
Proof. unfold QString.endsWith. rewrite rev_append. apply prefix_app. Qed.

Lemma toLowerChar_idempotent c :
  QString.toLowerChar (QString.toLowerChar c) = QString.toLowerChar c.
Proof. destruct c as [[] [] [] [] [] [] [] []]; reflexivity. Qed.

Lemma toLower_idempotent s :
  QString.toLower (QString.toLower s) = QString.toLower s.
Proof.
  induction s as [|c s IH]; simpl; [reflexivity|].
  rewrite toLowerChar_idempotent, IH. reflexivity.
Qed.

(** [split] one character further. *)
Lemma split_go_cur sep cur s :
  QString.split_go sep cur s
  = match QString.split_go sep "" s with
    | p :: ps => (String.rev cur +:+ p) :: ps
    | [] => []
    end.
Proof.
  revert cur. induction s as [|c s IH]; intros cur; simpl.
  - rewrite string_app_nil_r. reflexivity.
  - destruct (Ascii.eqb c sep).
    + rewrite string_app_nil_r. reflexivity.
    + rewrite (IH (String c cur)), (IH (String c "")).
      destruct (QString.split_go sep "" s) as [|p ps]; [reflexivity|].
      f_equal. unfold String.rev at 1.
      change (String.rev_app cur (String c "") +:+ p
              = String.rev cur +:+ String.rev (String c "") +:+ p).
      rewrite rev_app_append, string_app_assoc. reflexivity.
Qed.

Lemma split_cons sep c s :
  QString.split sep (String c s)
  = if Ascii.eqb c sep then "" :: QString.split sep s
    else match QString.split sep s with
         | p :: ps => String c p :: ps
         | [] => []
         end.
Proof.
  unfold QString.split. simpl. destruct (Ascii.eqb c sep); [reflexivity|].
  rewrite split_go_cur. reflexivity.
Qed.

Lemma split_nonempty sep s : QString.split sep s ≠ [].
Proof.
  induction s as [|c s IH]; [discriminate|].
  rewrite split_cons. destruct (Ascii.eqb c sep); [discriminate|].
  destruct (QString.split sep s); [congruence|discriminate].
Qed.

(** Joining the parts with the separator gives the string back. *)
Lemma join_split sep s : QString.join sep (QString.split sep s) = s.
Proof.
  induction s as [|c s IH]; [reflexivity|].
  rewrite split_cons. pose proof (split_nonempty sep s) as Hne.
  destruct (Ascii.eqb_spec c sep) as [->|Hc].
  - destruct (QString.split sep s) as [|p ps]; [congruence|].
    change (QString.join sep ("" :: p :: ps))
      with (String sep (QString.join sep (p :: ps))).
    rewrite IH. reflexivity.
  - destruct (QString.split sep s) as [|p ps]; [congruence|].
    destruct ps as [|q ps].
    + simpl in *. rewrite IH. reflexivity.
    + change (QString.join sep (String c p :: q :: ps))
        with (String c (p +:+ String sep (QString.join sep (q :: ps)))).
      change (QString.join sep (p :: q :: ps))
        with (p +:+ String sep (QString.join sep (q :: ps))) in IH.
      rewrite IH. reflexivity.
Qed.

Lemma split_absent sep s :
  QString.contains sep s = false → QString.split sep s = [s].
Proof.
  induction s as [|c s IH]; [reflexivity|]. simpl. rewrite split_cons.
  destruct (Ascii.eqb c sep); simpl; [discriminate|].
  intros H. rewrite (IH H). reflexivity.
Qed.

Lemma split_first sep key rest :
  QString.contains sep key = false →
  QString.split sep (key +:+ String sep rest) = key :: QString.split sep rest.
Proof.
  induction key as [|c key IH]; simpl.
  - intros _. change ("" +:+ String sep rest) with (String sep rest).
    rewrite split_cons, Ascii.eqb_refl. reflexivity.
  - change (String c key +:+ String sep rest)
      with (String c (key +:+ String sep rest)).
    rewrite split_cons. destruct (Ascii.eqb c sep); simpl; [discriminate|].
    intros H. rewrite (IH H). reflexivity.
Qed.

(** ** Attribute specifications *)

(** X1.  An attribute specification "key:value" whose key has no colon
    is read as that key and that value; colons in the value stay. *)
Theorem attribute_key_value (key value : string)
    (Hkey : QString.contains ":" key = false) :
  attrName (key +:+ ":" +:+ value) = key
  ∧ attrValue (key +:+ ":" +:+ value) = value.
Proof.
  unfold attrName, attrValue, attrList.
  change (key +:+ ":" +:+ value) with (key +:+ String ":" value).
  rewrite (split_first _ _ _ Hkey).
  assert (Hlen : (length (key :: QString.split ":" value) =? 1)%nat = false).
  { pose proof (split_nonempty ":" value) as Hne.
    destruct (QString.split ":" value); [congruence|reflexivity]. }
  rewrite Hlen. cbn [hd tl]. rewrite join_split. auto.
Qed.

Lemma attribute_key_value_witness :
  attrName "docUrl:qthelp://org.qt/doc/index.html" = "docUrl"
  ∧ attrValue "docUrl:qthelp://org.qt/doc/index.html"
    = "qthelp://org.qt/doc/index.html".
Proof.
  exact (attribute_key_value "docUrl" "qthelp://org.qt/doc/index.html"
           eq_refl).
Defined.

(** X2.  An attribute specification without a colon is a key with the
    value "true". *)
Theorem attribute_flag (attribute : string)
    (Hflag : QString.contains ":" attribute = false) :
  attrName attribute = attribute ∧ attrValue attribute = "true".
Proof.
  unfold attrName, attrValue, attrList.
  rewrite (split_absent _ _ Hflag). auto.
Qed.

Lemma attribute_flag_witness :
  attrName "isHighlighted" = "isHighlighted"
  ∧ attrValue "isHighlighted" = "true".
Proof. exact (attribute_flag "isHighlighted" eq_refl). Defined.

(** ** Paths *)

Lemma string_app_empty (a b : string) : a +:+ b = "" → a = "".
Proof. destruct a; [reflexivity|discriminate]. Qed.

(** X3.  The installation path of an example is empty or ends with a
    slash; it is empty only when the example has no "installpath" meta
    value and the writer has no examples path. *)
Theorem installPath_ends_with_slash (self : ManifestWriter)
    (example : ExampleNode) :
  let metaPath :=
    match metaTagMap example with
    | Some m => multiMapValue "installpath" m
    | None => ""
    end in
  let installPath := retrieveExampleInstallationPath self example in
  (installPath = "" ∨ QString.endsWith installPath "/" = true)
  ∧ (installPath = "" ↔ metaPath = "" ∧ m_examplesPath self = "").
Proof.
  cbv zeta. unfold retrieveExampleInstallationPath.
  set (metaPath := match metaTagMap example with
                   | Some m => multiMapValue "installpath" m
                   | None => ""
                   end).
  clearbody metaPath.
  destruct (String.eqb metaPath "") eqn:Em.
  - apply String.eqb_eq in Em as Hmeta.
    destruct (String.eqb (m_examplesPath self) "") eqn:Ec; simpl.
    + apply String.eqb_eq in Ec as Hconf. rewrite Hconf.
      split; [auto|]. split; auto.
    + apply String.eqb_neq in Ec as Hconf.
      destruct (QString.endsWith (m_examplesPath self) "/") eqn:Hends; simpl.
      * split; [auto|]. split; [congruence|]. intros [_ H]. congruence.
      * split; [right; apply endsWith_app|].
        split; [|intros [_ H]; congruence].
        intros H. apply string_app_empty in H. congruence.
  - apply String.eqb_neq in Em as Hmeta. rewrite Em. simpl.
    destruct (QString.endsWith metaPath "/") eqn:Hends; simpl.
    + split; [auto|]. split; [congruence|]. intros [H _]. congruence.
    + split; [right; apply endsWith_app|].
      split; [|intros [H _]; congruence].
      intros H. apply string_app_empty in H. congruence.
Qed.

(** X4.  The constructor leaves the tag set empty, a manifest directory
    that starts with "qthelp://" and ends with a slash, and an examples
    path that is empty or ends with a slash. *)
Theorem constructor_state (config : Config) (examples : list ExampleNode) :
  let self := newManifestWriter config examples in
  m_tags self = ∅
  ∧ QString.startsWith (m_manifestDir self) "qthelp://" = true
  ∧ QString.endsWith (m_manifestDir self) "/" = true
  ∧ (m_examplesPath self = "" ↔ examplesInstallPath config = "")
  ∧ (m_examplesPath self = ""
     ∨ m_examplesPath self = examplesInstallPath config +:+ "/").
Proof.
  cbv zeta. unfold newManifestWriter. cbn [m_tags m_manifestDir m_examplesPath].
  split; [reflexivity|]. split; [|split; [|split]].
  - unfold QString.startsWith. rewrite string_app_assoc. apply prefix_app.
  - rewrite <- !string_app_assoc. apply endsWith_app.
  - destruct (String.eqb_spec (examplesInstallPath config) "") as [H|H]; simpl.
    + tauto.
    + split; [|congruence]. intros H'. apply string_app_empty in H'.
      congruence.
  - destruct (String.eqb_spec (examplesInstallPath config) "") as [H|H]; simpl;
      auto.
Qed.

(** X5.  For a writer as the constructor leaves it and an example
    without an "installpath" meta value, the installation path is the
    configured examples path with one slash added, or empty when no
    path is configured: [retrieveExampleInstallationPath] adds nothing
    to what the constructor made. *)
Theorem installPath_from_config (config : Config)
    (examples : list ExampleNode) (example : ExampleNode)
    (Hmeta : match metaTagMap example with
             | Some m => multiMapValue "installpath" m
             | None => ""
             end = "") :
  retrieveExampleInstallationPath (newManifestWriter config examples) example
  = if String.eqb (examplesInstallPath config) "" then ""
    else examplesInstallPath config +:+ "/".
Proof.
  unfold retrieveExampleInstallationPath. rewrite Hmeta.
  unfold newManifestWriter. cbn [m_examplesPath].
  change (String.eqb "" "") with true. cbv iota.
  destruct (String.eqb (examplesInstallPath config) "") eqn:Ec; simpl.
  - apply String.eqb_eq in Ec as ->. reflexivity.
  - rewrite endsWith_app, andb_false_r. reflexivity.
Qed.

Lemma installPath_from_config_witness :
  retrieveExampleInstallationPath
    (newManifestWriter
       {| project := "QtQuick"; outputDir := "doc"; qhpNamespace := "org.qt";
          qhpVirtualFolder := "qtquick"; examplesInstallPath := "quick";
          manifestMetaFilters := [] |} [])
    {| name := "quick/clocks"; title := "Clocks";
       projectFile := "clocks.pro"; imageFileName := "";
       files := []; briefText := "";
       metaTagMap := Some [("tag", "time")] |}
  = "quick/".
Proof.
  exact (installPath_from_config
           {| project := "QtQuick"; outputDir := "doc";
              qhpNamespace := "org.qt"; qhpVirtualFolder := "qtquick";
              examplesInstallPath := "quick"; manifestMetaFilters := [] |}
           []
           {| name := "quick/clocks"; title := "Clocks";
              projectFile := "clocks.pro"; imageFileName := "";
              files := []; briefText := "";
              metaTagMap := Some [("tag", "time")] |}
           eq_refl).
Defined.

(** ** More on the file ranking *)

Lemma getFilesToOpen_step_keys exampleName m file k :
  k ∈ QMap.keys (getFilesToOpen_step exampleName m file) →
  k ∈ QMap.keys m ∨ (0 <= k <= 4)%Z.
Proof.
  unfold getFilesToOpen_step.
  repeat (destruct (_ : bool)); try (intros H; left; exact H);
    intros H; apply QMap_keys_insert in H as [->|H]; auto; right; lia.
Qed.

Lemma getFilesToOpen_keys files exampleName k :
  k ∈ QMap.keys (getFilesToOpen files exampleName) → (0 <= k <= 4)%Z.
Proof.
  unfold getFilesToOpen.
  induction files as [|file files IH] using rev_ind.
  - intros H. apply elem_of_nil in H as [].
  - rewrite foldl_snoc. intros H.
    apply getFilesToOpen_step_keys in H as [H|H]; auto.
Qed.

Lemma getFilesToOpen_values files exampleName k file :
  QMap.value k (getFilesToOpen files exampleName) = Some file → file ∈ files.
Proof.
  unfold getFilesToOpen.
  induction files as [|f files IH] using rev_ind.
  - discriminate.
  - rewrite foldl_snoc, getFilesToOpen_step_value, elem_of_app,
      list_elem_of_singleton.
    destruct (rankedAt exampleName k f); [intros [= ->]; auto|auto].
Qed.

(** Strictly increasing integers between two bounds are no more than
    the bounds leave room for. *)
Lemma increasing_bounded_length (l : list Z) (lo hi : Z) :
  StronglySorted Z.lt l → Forall (fun k => (lo <= k <= hi)%Z) l →
  (Z.of_nat (length l) <= Z.max 0 (hi - lo + 1))%Z.
Proof.
  intros Hsorted. revert lo.
  induction Hsorted as [|x l Hl IH Hall]; intros lo Hbound; simpl length.
  - lia.
  - apply Forall_cons in Hbound as [Hx Hbound].
    assert (Htail : Forall (fun k => (x + 1 <= k <= hi)%Z) l).
    { rewrite Forall_forall in *. intros k Hk.
      specialize (Hall k Hk). specialize (Hbound k Hk). lia. }
    specialize (IH (x + 1)%Z Htail). lia.
Qed.

(** X6.  A ranking has its keys in increasing order, all between 0 and
    4, so it has at most five entries; and every file in it is one of
    the files given. *)
Theorem ranking_bounds (files : list string) (exampleName : string) :
  let filesToOpen := getFilesToOpen files exampleName in
  QMap.wf filesToOpen
  ∧ (∀ k, k ∈ QMap.keys filesToOpen → (0 <= k <= 4)%Z)
  ∧ length filesToOpen ≤ 5
  ∧ (∀ k file, QMap.value k filesToOpen = Some file → file ∈ files).
Proof.
  cbv zeta. split; [apply getFilesToOpen_wf|]. split; [|split].
  - intros k. apply getFilesToOpen_keys.
  - assert (Hall : Forall (fun k => (0 <= k <= 4)%Z)
                          (QMap.keys (getFilesToOpen files exampleName))).
    { apply Forall_forall. intros k. apply getFilesToOpen_keys. }
    pose proof (increasing_bounded_length _ 0 4
                  (getFilesToOpen_wf files exampleName) Hall) as Hlen.
    unfold QMap.keys in Hlen. rewrite length_fmap in Hlen. lia.
  - intros k file. apply getFilesToOpen_values.
Qed.

(** ** More on tags *)

Lemma cleanUpTag_kept tag t :
  cleanUpTag tag = Some t →
  2 ≤ String.length t
  ∧ QString.isDigit (QString.at0 t) = false
  ∧ QString.at0 t ≠ "-"%char
  ∧ t ≠ "qt" ∧ t ≠ "the" ∧ t ≠ "and"
  ∧ QString.startsWith t "example" = false
  ∧ QString.startsWith t "chapter" = false.
Proof.
  unfold cleanUpTag.
  set (t1 := if Ascii.eqb (QString.at0 tag) "(" then _ else _).
  set (t2 := if QString.endsWith t1 ":" then _ else _).
  clearbody t2. clear t1.
  destruct (_ || _) eqn:Hrej; [discriminate|]. intros [= <-].
  repeat (apply orb_false_elim in Hrej as [Hrej ?]).
  repeat split; auto.
  - apply Nat.ltb_ge. assumption.
  - apply Ascii.eqb_neq. assumption.
  - apply String.eqb_neq. assumption.
  - apply String.eqb_neq. assumption.
  - apply String.eqb_neq. assumption.
Qed.

(** X8.  After the cleanup every tag has at least two characters, does
    not start with a digit or "-", is none of "qt", "the" and "and",
    and does not start with "example" or "chapter". *)
Theorem cleanUpTags_postcondition (self : ManifestWriter) (t : string)
    (Ht : t ∈ m_tags (cleanUpTags self)) :
  2 ≤ String.length t
  ∧ QString.isDigit (QString.at0 t) = false
  ∧ QString.at0 t ≠ "-"%char
  ∧ t ≠ "qt" ∧ t ≠ "the" ∧ t ≠ "and"
  ∧ QString.startsWith t "example" = false
  ∧ QString.startsWith t "chapter" = false.
Proof.
  unfold cleanUpTags in Ht. rewrite m_tags_set_m_tags in Ht.
  apply elem_of_set_omap in Ht as (tag & _ & Htag).
  exact (cleanUpTag_kept tag t Htag).
Qed.

Lemma cleanUpTags_postcondition_witness :
  let self :=
    set_m_tags
      (newManifestWriter
         {| project := "QtQuick"; outputDir := "doc"; qhpNamespace := "org.qt";
            qhpVirtualFolder := "qtquick"; examplesInstallPath := "quick";
            manifestMetaFilters := [] |} [])
      {[ "(beta)"; "qt"; "3d" ]} in
  2 ≤ String.length "beta" ∧ "beta" ≠ "qt".
Proof.
  intros self.
  assert (Hin : "beta" ∈ m_tags (cleanUpTags self)).
  { assert (Hclean : m_tags (cleanUpTags self) = {[ "beta" ]})
      by (vm_compute; reflexivity).
    rewrite Hclean. apply elem_of_singleton. reflexivity. }
  pose proof (cleanUpTags_postcondition self "beta" Hin)
    as (Hlen & _ & _ & Hqt & _).
  split; [exact Hlen|exact Hqt].
Defined.

Lemma size_list_to_set_le (l : list string) :
  size (list_to_set l : gset string) ≤ length l.
Proof.
  induction l as [|x l IH]; cbn [length].
  - rewrite list_to_set_nil, size_empty. lia.
  - rewrite list_to_set_cons, size_union_alt, size_singleton.
    pose proof (subseteq_size (list_to_set l ∖ {[x]} : gset string)
                  (list_to_set l)) as Hsub.
    assert (Hdiff : (list_to_set l ∖ {[x]} : gset string) ⊆ list_to_set l)
      by (intros y Hy; apply elem_of_difference in Hy as [Hy _]; exact Hy).
    specialize (Hsub Hdiff). lia.
Qed.

Lemma length_omap_le {A B} (f : A → option B) (l : list A) :
  length (omap f l) ≤ length l.
Proof.
  induction l as [|x l IH]; [reflexivity|].
  change (omap f (x :: l))
    with (match f x with Some y => y :: omap f l | None => omap f l end).
  destruct (f x); cbn [length]; lia.
Qed.

(** X9.  The cleanup never makes the tag set larger. *)
Theorem cleanUpTags_size (self : ManifestWriter) :
  size (m_tags (cleanUpTags self)) ≤ size (m_tags self).
Proof.
  unfold cleanUpTags. rewrite m_tags_set_m_tags. unfold set_omap.
  etransitivity; [apply size_list_to_set_le|].
  etransitivity; [apply length_omap_le|]. reflexivity.
Qed.

(** X10.  For a tag set that is not empty, [writeTagsElement] writes one
    "tags" element whose text joins, with commas, the tags of the set:
    each one once, in ascending order.  *)
Theorem writeTagsElement_sorted (self : ManifestWriter)
    (writer : QXmlStreamWriter) (Hsome : m_tags self ≠ ∅) :
  ∃ sortedTags,
    (writeTagsElement self (Some writer)).2
    = Some (writer ++ [StartElement "tags";
                       Characters (QString.join "," sortedTags);
                       EndElement])
    ∧ Sorted String.le sortedTags
    ∧ NoDup sortedTags
    ∧ ∀ t, t ∈ sortedTags ↔ t ∈ m_tags self.
Proof.
  exists (merge_sort String.le (elements (m_tags self))).
  split; [|split; [|split]].
  - rewrite writeTagsElement_eq. cbn [snd]. unfold tagsElement.
    rewrite bool_decide_eq_false_2 by exact Hsome. reflexivity.
  - apply Sorted_merge_sort. apply _.
  - rewrite merge_sort_Permutation. apply NoDup_elements.
  - intros t. rewrite merge_sort_Permutation. apply elem_of_elements.
Qed.

Lemma writeTagsElement_sorted_witness :
  ∃ sortedTags,
    (writeTagsElement
       (set_m_tags
          (newManifestWriter
             {| project := "QtQuick"; outputDir := "doc";
                qhpNamespace := "org.qt"; qhpVirtualFolder := "qtquick";
                examplesInstallPath := "quick"; manifestMetaFilters := [] |}
             [])
          {[ "quick"; "clocks"; "android" ]})
       (Some [])).2
    = Some [StartElement "tags"; Characters (QString.join "," sortedTags);
            EndElement]
    ∧ Sorted String.le sortedTags.
Proof.
  destruct (writeTagsElement_sorted
              (set_m_tags
                 (newManifestWriter
                    {| project := "QtQuick"; outputDir := "doc";
                       qhpNamespace := "org.qt"; qhpVirtualFolder := "qtquick";
                       examplesInstallPath := "quick";
                       manifestMetaFilters := [] |} [])
                 {[ "quick"; "clocks"; "android" ]}) [])
    as (sortedTags & Hw & Hs & _).
  - intros Hempty.
    assert (Hin : "quick" ∈ (∅ : gset string)).
    { rewrite <- Hempty. cbn [m_tags set_m_tags].
      apply elem_of_union. left. apply elem_of_union. left.
      apply elem_of_singleton. reflexivity. }
    apply elem_of_empty in Hin. exact Hin.
  - exists sortedTags. split; [exact Hw|exact Hs].
Defined.

Lemma addWords_loop_grows fuel project pos tags result :
  addWords_loop fuel project pos tags = Some result → tags ⊆ result.
Proof.
  revert pos tags. induction fuel as [|fuel IH]; intros pos tags; simpl.
  - discriminate.
  - destruct (QRegularExpression.match_ moduleWord project pos) as [range|].
    + intros H. apply IH in H. intros t Ht. apply H, elem_of_union. auto.
    + intros [= <-]. reflexivity.
Qed.

Lemma includeTags_grows self example :
  m_tags self ⊆ m_tags (includeTagsAddedWithMetaCommand self example).
Proof.
  unfold includeTagsAddedWithMetaCommand.
  destruct example as [example|]; [|reflexivity].
  destruct (metaTagMap example) as [m|]; [|reflexivity].
  generalize (multiMapValues "tag" m). intros l. revert self.
  induction l as [|tag l IH]; intros self; [reflexivity|].
  cbn [foldl]. etransitivity; [|apply IH].
  rewrite m_tags_set_m_tags. apply union_subseteq_l.
Qed.

(** X11.  The steps that derive tags only add to the tag set: the
    filter rules, the words of the module name, the meta tags and the
    title words all keep the tags that are there. *)
Theorem tag_steps_only_add (self : ManifestWriter) (fullName : string)
    (usedAttributes : option (list string))
    (writer : option QXmlStreamWriter) (example : option ExampleNode) :
  m_tags self
  ⊆ m_tags (processManifestMetaContent self fullName usedAttributes
                                       writer).1.1
  ∧ m_tags self ⊆ m_tags (addWordsFromModuleNamesAsTags self)
  ∧ m_tags self ⊆ m_tags (includeTagsAddedWithMetaCommand self example)
  ∧ m_tags self ⊆ m_tags (addTitleWordsToTags self example).
Proof.
  split; [|split; [|split]].
  - destruct usedAttributes as [used|], writer as [w|]; try reflexivity.
    rewrite processManifestMetaContent_eq. cbv zeta. cbn [fst].
    rewrite m_tags_set_m_tags. apply union_subseteq_l.
  - unfold addWordsFromModuleNamesAsTags.
    destruct (addWords_loop _ _ _ _) as [tags|] eqn:Hloop; [|reflexivity].
    rewrite m_tags_set_m_tags. exact (addWords_loop_grows _ _ _ _ _ Hloop).
  - apply includeTags_grows.
  - unfold addTitleWordsToTags. destruct example as [example|]; [|reflexivity].
    rewrite m_tags_set_m_tags. apply union_subseteq_l.
Qed.

Lemma search_no_upper s offset :
  allChars (fun c => negb (QString.isUpperAZ c)) s = true →
  QRegularExpression.search moduleWord s offset = None.
Proof.
  revert offset. induction s as [|c s IH]; intros offset; simpl.
  - reflexivity.
  - intros H. apply andb_true_iff in H as [Hc Hs].
    apply negb_true_iff in Hc. rewrite Hc. apply IH, Hs.
Qed.

(** X12.  A project name without a capital letter A..Z gives no module
    words: [addWordsFromModuleNamesAsTags] leaves the writer as it
    is. *)
Theorem addWords_needs_capital (self : ManifestWriter)
    (Hlower : allChars (fun c => negb (QString.isUpperAZ c)) (m_project self)
              = true) :
  addWordsFromModuleNamesAsTags self = self.
Proof.
  unfold addWordsFromModuleNamesAsTags. simpl addWords_loop.
  unfold QRegularExpression.match_. simpl Nat.leb. cbv iota.
  change (QString.skip 0 (m_project self)) with (m_project self).
  rewrite (search_no_upper _ _ Hlower). apply set_m_tags_same.
Qed.

Lemma addWords_needs_capital_witness :
  let self :=
    newManifestWriter
      {| project := "qtquick3d"; outputDir := "doc"; qhpNamespace := "org.qt";
         qhpVirtualFolder := "qtquick"; examplesInstallPath := "quick";
         manifestMetaFilters := [] |} [] in
  addWordsFromModuleNamesAsTags self = self.
Proof. intros self. exact (addWords_needs_capital self eq_refl). Defined.

Lemma split_lower sep s p :
  QString.toLower s = s → p ∈ QString.split sep s → QString.toLower p = p.
Proof.
  revert p. induction s as [|c s IH]; intros p Hs.
  - intros Hp. apply list_elem_of_singleton in Hp as ->. reflexivity.
  - simpl in Hs. injection Hs as Hc Hs'. rewrite split_cons.
    destruct (Ascii.eqb c sep).
    + intros Hp. apply elem_of_cons in Hp as [->|Hp]; [reflexivity|auto].
    + destruct (QString.split sep s) as [|q qs] eqn:Hsplit.
      * intros Hp. apply elem_of_nil in Hp as [].
      * intros Hp. apply elem_of_cons in Hp as [->|Hp].
        -- simpl. rewrite Hc, (IH q Hs'); [reflexivity|].
           apply elem_of_cons. auto.
        -- apply (IH p Hs'). apply elem_of_cons. auto.
Qed.

Lemma addWords_loop_lower fuel project pos tags result t :
  addWords_loop fuel project pos tags = Some result → t ∈ result →
  t ∈ tags ∨ QString.toLower t = t.
Proof.
  revert pos tags. induction fuel as [|fuel IH]; intros pos tags; simpl.
  - discriminate.
  - destruct (QRegularExpression.match_ moduleWord project pos) as [range|].
    + intros H Ht. destruct (IH _ _ H Ht) as [Hin|Hl]; [|auto].
      apply elem_of_union in Hin as [Hin|Hin]; [auto|].
      apply elem_of_singleton in Hin as ->. right. apply toLower_idempotent.
    + intros [= <-]. auto.
Qed.

Lemma includeTags_lower self example t :
  t ∈ m_tags (includeTagsAddedWithMetaCommand self example) →
  t ∈ m_tags self ∨ QString.toLower t = t.
Proof.
  unfold includeTagsAddedWithMetaCommand.
  destruct example as [example|]; [|auto].
  destruct (metaTagMap example) as [m|]; [|auto].
  generalize (multiMapValues "tag" m). intros l. revert self.
  induction l as [|tag l IH]; intros self; [auto|].
  cbn [foldl]. intros Ht. apply IH in Ht as [Ht|Ht]; [|auto].
  rewrite m_tags_set_m_tags in Ht. apply elem_of_union in Ht as [Ht|Ht]; [auto|].
  right. apply elem_of_list_to_set in Ht.
  exact (split_lower _ _ _ (toLower_idempotent tag) Ht).
Qed.

(** X13.  Every tag that comes from the module name, the meta tags or
    the title is in lower case: after these three steps a tag is either
    one that was there before or one that [toLower] leaves as it is. *)
Theorem derived_tags_lower_case (self : ManifestWriter)
    (example : option ExampleNode) (t : string)
    (Ht : t ∈ m_tags
            (addTitleWordsToTags
               (includeTagsAddedWithMetaCommand
                  (addWordsFromModuleNamesAsTags self) example) example)) :
  t ∈ m_tags self ∨ QString.toLower t = t.
Proof.
  assert (Hinclude :
    t ∈ m_tags (includeTagsAddedWithMetaCommand
                  (addWordsFromModuleNamesAsTags self) example)
    ∨ QString.toLower t = t).
  { unfold addTitleWordsToTags in Ht.
    destruct example as [example|]; [|auto].
    rewrite m_tags_set_m_tags in Ht. apply elem_of_union in Ht as [Ht|Ht]; [auto|].
    right. apply elem_of_list_to_set in Ht.
    exact (split_lower _ _ _ (toLower_idempotent (title example)) Ht). }
  destruct Hinclude as [Hinclude|]; [|auto].
  apply includeTags_lower in Hinclude as [Hwords|]; [|auto].
  unfold addWordsFromModuleNamesAsTags in Hwords.
  destruct (addWords_loop _ _ _ _) as [tags|] eqn:Hloop; [|auto].
  rewrite m_tags_set_m_tags in Hwords.
  exact (addWords_loop_lower _ _ _ _ _ _ Hloop Hwords).
Qed.

Lemma derived_tags_lower_case_witness :
  let clocks :=
    {| name := "quick/clocks"; title := "Clocks Example";
       projectFile := "clocks.pro"; imageFileName := "";
       files := []; briefText := "";
       metaTagMap := Some [("tag", "Time,QML")] |} in
  let self :=
    newManifestWriter
      {| project := "QtQuick"; outputDir := "doc"; qhpNamespace := "org.qt";
         qhpVirtualFolder := "qtquick"; examplesInstallPath := "quick";
         manifestMetaFilters := [] |} [clocks] in
  "qml" ∈ m_tags self ∨ QString.toLower "qml" = "qml".
Proof.
  intros clocks self.
  apply (derived_tags_lower_case self (Some clocks) "qml").
  assert (Htags :
    m_tags (addTitleWordsToTags
              (includeTagsAddedWithMetaCommand
                 (addWordsFromModuleNamesAsTags self) (Some clocks))
              (Some clocks))
    = {[ "qt"; "quick"; "time"; "qml"; "clocks"; "example" ]})
    by (vm_compute; reflexivity).
  rewrite Htags. rewrite !elem_of_union, !elem_of_singleton. tauto.
Defined.

(** ** Rules that do not match, and warnings *)

Lemma flat_map_unmatched {A B} (test : A → bool) (l : list A) (k : list B) :
  existsb test l = false → flat_map (fun x => if test x then k else []) l = [].
Proof.
  induction l as [|x l IH]; [reflexivity|]. simpl.
  destruct (test x); [discriminate|]. exact IH.
Qed.

Lemma visitedAttributes_unmatched fullName filters :
  (∀ index, index ∈ filters → ruleMatches fullName index = false) →
  visitedAttributes fullName filters = [].
Proof.
  induction filters as [|index filters IH]; intros Hnone; [reflexivity|].
  unfold visitedAttributes in *. cbn [flat_map].
  rewrite IH by (intros i Hi; apply Hnone, elem_of_cons; auto).
  rewrite app_nil_r. apply flat_map_unmatched.
  apply (Hnone index), elem_of_cons. auto.
Qed.

Lemma appliedTags_unmatched fullName filters :
  (∀ index, index ∈ filters → ruleMatches fullName index = false) →
  appliedTags fullName filters = ∅.
Proof.
  induction filters as [|index filters IH]; intros Hnone; [reflexivity|].
  unfold appliedTags in *. cbn [fmap list_fmap union_list foldr].
  rewrite (Hnone index) by (apply elem_of_cons; auto).
  rewrite (left_id_L ∅ (∪)). apply IH.
  intros i Hi. apply Hnone, elem_of_cons. auto.
Qed.

(** X14.  When no rule has a name that matches the full name of the
    example, [processManifestMetaContent] changes nothing: not the tag
    set, not the used attributes, and it writes nothing. *)
Theorem unmatched_rules_do_nothing (self : ManifestWriter)
    (fullName : string) (usedAttributes : option (list string))
    (writer : option QXmlStreamWriter)
    (Hnone : ∀ index, index ∈ m_manifestMetaContent self →
                      ruleMatches fullName index = false) :
  processManifestMetaContent self fullName usedAttributes writer
  = (self, usedAttributes, writer).
Proof.
  destruct usedAttributes as [used|], writer as [w|]; try reflexivity.
  rewrite processManifestMetaContent_eq. cbv zeta.
  rewrite (visitedAttributes_unmatched _ _ Hnone),
    (appliedTags_unmatched _ _ Hnone).
  simpl. rewrite !app_nil_r, (right_id_L ∅ (∪)), set_m_tags_same.
  reflexivity.
Qed.

Lemma unmatched_rules_do_nothing_witness :
  let self :=
    newManifestWriter
      {| project := "QtQuick"; outputDir := "doc"; qhpNamespace := "org.qt";
         qhpVirtualFolder := "qtquick"; examplesInstallPath := "quick";
         manifestMetaFilters :=
           [ {| names := ["QtWidgets/*"; "QtQuick/Clocks"];
                attributes := ["isHighlighted"];
                tags := {[ "widgets" ]} |} ] |} [] in
  processManifestMetaContent self "QtQuick/Calqlatr"
                             (Some ["name"; "docUrl"]) (Some [])
  = (self, Some ["name"; "docUrl"], Some []).
Proof.
  intros self. apply unmatched_rules_do_nothing.
  intros index Hin. apply list_elem_of_singleton in Hin as ->. reflexivity.
Defined.

Lemma used_key fileBase self example key :
  key ∈ (fixedAttributes fileBase self example).*1
        ++ (filterAttributes fileBase self example).*1
  ↔ key ∈ (fixedAttributes fileBase self example).*1
    ∨ notConfigured key
        (configuredAttributes (exampleFullName self example)
                              (m_manifestMetaContent self)) = false.
Proof.
  rewrite elem_of_app. unfold filterAttributes, notConfigured.
  split.
  - intros [Hfixed|Hin]; [auto|]. right.
    apply list_elem_of_fmap in Hin as ((k & v) & -> & Hin).
    apply newAttributes_first in Hin as [_ Hv].
    rewrite firstValue_visited in Hv. cbn [fst]. rewrite Hv. reflexivity.
  - intros [Hfixed|Hconf]; [auto|].
    destruct (decide (key ∈ (fixedAttributes fileBase self example).*1));
      [auto|].
    destruct (firstValue key _) as [v|] eqn:Hv; [|discriminate].
    right. apply list_elem_of_fmap. exists (key, v). split; [reflexivity|].
    apply newAttributes_first. rewrite firstValue_visited. auto.
Qed.

Lemma used_key_bool fileBase self example key :
  bool_decide
    (key ∈ (fixedAttributes fileBase self example).*1
           ++ (filterAttributes fileBase self example).*1)
  = bool_decide (key ∈ (fixedAttributes fileBase self example).*1)
    || negb (notConfigured key
               (configuredAttributes (exampleFullName self example)
                                     (m_manifestMetaContent self))).
Proof.
  pose proof (used_key fileBase self example key) as Hiff.
  destruct (notConfigured key _); simpl in *.
  - rewrite orb_false_r. apply bool_decide_ext.
    rewrite Hiff. split; [intros [H|H]; [exact H|discriminate]|auto].
  - rewrite orb_true_r. apply bool_decide_eq_true_2, Hiff. auto.
Qed.

Lemma fixed_imageUrl fileBase self example :
  bool_decide ("imageUrl" ∈ (fixedAttributes fileBase self example).*1)
  = negb (String.eqb (imageFileName example) "").
Proof.
  rewrite fixedAttributes_keys.
  destruct (String.eqb (projectFile example) "");
    destruct (String.eqb (imageFileName example) ""); vm_compute; reflexivity.
Qed.

Lemma fixed_projectPath fileBase self example :
  bool_decide ("projectPath" ∈ (fixedAttributes fileBase self example).*1)
  = negb (String.eqb (projectFile example) "").
Proof.
  rewrite fixedAttributes_keys.
  destruct (String.eqb (projectFile example) "");
    destruct (String.eqb (imageFileName example) ""); vm_compute; reflexivity.
Qed.

(** X15.  Writing an example issues the warning about a missing
    "imageUrl" exactly when the example has no image and no matching
    rule gives "imageUrl" a value, and the warning about a missing
    "projectPath" exactly when it has no project file and no matching
    rule gives "projectPath" a value; in that order, after the warnings
    issued before. *)
Theorem missing_attribute_warnings (fileBase : ExampleNode → string)
    (element : string) (self : ManifestWriter) (writer : QXmlStreamWriter)
    (warned : list string) (example : ExampleNode) :
  let rules :=
    configuredAttributes (exampleFullName self example)
                         (m_manifestMetaContent self) in
  (writeExample fileBase element (self, writer, warned) example).2
  = warned
    ++ (if String.eqb (imageFileName example) ""
           && notConfigured "imageUrl" rules
        then [name example +:+ ": missing attribute imageUrl"] else [])
    ++ (if String.eqb (projectFile example) ""
           && notConfigured "projectPath" rules
        then [name example +:+ ": missing attribute projectPath"] else []).
Proof.
  cbv zeta. rewrite writeExample_eq. cbv zeta. cbn [snd]. f_equal.
  unfold warnAboutUnusedAttributes.
  cbn [omap list_omap].
  rewrite !used_key_bool, fixed_imageUrl, fixed_projectPath.
  destruct (String.eqb (imageFileName example) "");
    destruct (String.eqb (projectFile example) "");
    destruct (notConfigured "imageUrl" _);
    destruct (notConfigured "projectPath" _); reflexivity.
Qed.

(** ** The documents are well formed *)

Lemma xmlScan_app ctx a b :
  xmlScan ctx (a ++ b)
  = match xmlScan ctx a with
    | Some ctx' => xmlScan ctx' b
    | None => None
    end.
Proof.
  revert ctx. induction a as [|tok a IH]; intros ctx; [reflexivity|].
  simpl. destruct (xmlStep ctx tok); [apply IH|reflexivity].
Qed.

Lemma xmlStep_attribute rooted depth ns n v :
  xmlStep (Body rooted depth (Some ns)) (Attribute n v)
  = if bool_decide (n ∈ ns) then None
    else Some (Body rooted depth (Some (ns ++ [n]))).
Proof. destruct rooted, depth; reflexivity. Qed.

Lemma xmlStep_start rooted depth tag n :
  xmlStep (Body rooted (S depth) tag) (StartElement n)
  = Some (Body true (S (S depth)) (Some [])).
Proof. destruct rooted, tag; reflexivity. Qed.

Lemma xmlStep_end rooted depth tag :
  xmlStep (Body rooted (S depth) tag) EndElement
  = Some (Body rooted depth None).
Proof. destruct rooted, tag; reflexivity. Qed.

Lemma xmlStep_characters rooted depth tag text :
  xmlStep (Body rooted (S depth) tag) (Characters text)
  = Some (Body rooted (S depth) None).
Proof. destruct rooted, tag; reflexivity. Qed.

Lemma xmlStep_cdata rooted depth tag text :
  xmlStep (Body rooted (S depth) tag) (CDATA text)
  = Some (Body rooted (S depth) None).
Proof. destruct rooted, tag; reflexivity. Qed.

Lemma xmlScan_cons ctx tok toks :
  xmlScan ctx (tok :: toks)
  = match xmlStep ctx tok with
    | Some ctx' => xmlScan ctx' toks
    | None => None
    end.
Proof. reflexivity. Qed.

Lemma xmlScan_attributes rooted depth ns attrs :
  NoDup (ns ++ attrs.*1) →
  xmlScan (Body rooted depth (Some ns)) (attributeTokens attrs)
  = Some (Body rooted depth (Some (ns ++ attrs.*1))).
Proof.
  revert ns. induction attrs as [|[k v] attrs IH]; intros ns Hnodup.
  - simpl. rewrite app_nil_r. reflexivity.
  - rewrite fmap_cons in Hnodup. cbn [fst] in Hnodup.
    unfold attributeTokens. rewrite fmap_cons. fold (attributeTokens attrs).
    cbn [fst snd]. rewrite xmlScan_cons, xmlStep_attribute.
    apply NoDup_app in Hnodup as Hparts. destruct Hparts as (_ & Hfresh & _).
    rewrite bool_decide_eq_false_2.
    + rewrite IH.
      * rewrite fmap_cons, <- app_assoc. reflexivity.
      * rewrite <- app_assoc. exact Hnodup.
    + intros Hin. apply (Hfresh k Hin). apply elem_of_cons. auto.
Qed.

Lemma xmlScan_fileToOpen depth tag mainFile text :
  xmlScan (Body true (S depth) tag) (fileToOpen mainFile text)
  = Some (Body true (S depth) None).
Proof.
  unfold fileToOpen. cbn [app]. rewrite xmlScan_cons, xmlStep_start.
  destruct mainFile; cbn [app].
  - rewrite xmlScan_cons, xmlStep_attribute.
    rewrite bool_decide_eq_false_2 by apply not_elem_of_nil.
    rewrite xmlScan_cons, xmlStep_characters, xmlScan_cons, xmlStep_end.
    reflexivity.
  - rewrite xmlScan_cons, xmlStep_characters, xmlScan_cons, xmlStep_end.
    reflexivity.
Qed.

Lemma xmlScan_blocks depth (f : Z * string → string) (l : list (Z * string)) :
  xmlScan (Body true (S depth) None)
          (flat_map (fun e => fileToOpen false (f e)) l)
  = Some (Body true (S depth) None).
Proof.
  induction l as [|e l IH]; [reflexivity|].
  cbn [flat_map]. rewrite xmlScan_app, xmlScan_fileToOpen. exact IH.
Qed.

Lemma xmlScan_filesToOpen depth installPath (m : QMap.t string) :
  xmlScan (Body true (S depth) None) (writeFilesToOpen [] installPath m)
  = Some (Body true (S depth) None).
Proof.
  destruct m as [|e rest]; [reflexivity|].
  rewrite writeFilesToOpen_cons, app_nil_l, xmlScan_app.
  rewrite (xmlScan_blocks _ (fun e => installPath +:+ e.2)).
  apply xmlScan_fileToOpen.
Qed.

Lemma xmlScan_description depth tag example :
  xmlScan (Body true (S depth) tag) (writeDescription [] example)
  = Some (Body true (S depth) None).
Proof.
  rewrite writeDescription_nil.
  rewrite xmlScan_cons, xmlStep_start, xmlScan_cons, xmlStep_cdata,
    xmlScan_cons, xmlStep_end.
  reflexivity.
Qed.

Lemma xmlScan_tags depth ts :
  xmlScan (Body true (S depth) None) (tagsElement ts)
  = Some (Body true (S depth) None).
Proof.
  unfold tagsElement. case_bool_decide; [reflexivity|].
  rewrite xmlScan_cons, xmlStep_start, xmlScan_cons, xmlStep_characters,
    xmlScan_cons, xmlStep_end.
  reflexivity.
Qed.

Lemma xmlScan_element depth tag element attrs example ts installPath
    (m : QMap.t string) :
  NoDup attrs.*1 →
  xmlScan (Body true (S depth) tag)
    ([StartElement element] ++ attributeTokens attrs
     ++ writeDescription [] example ++ tagsElement ts
     ++ writeFilesToOpen [] installPath m ++ [EndElement])
  = Some (Body true (S depth) None).
Proof.
  intros Hnodup. cbn [app]. rewrite xmlScan_cons, xmlStep_start.
  rewrite xmlScan_app, (xmlScan_attributes true (S (S depth)) [] attrs Hnodup).
  rewrite xmlScan_app, xmlScan_description.
  rewrite xmlScan_app, xmlScan_tags.
  rewrite xmlScan_app, xmlScan_filesToOpen.
  rewrite xmlScan_cons, xmlStep_end. reflexivity.
Qed.

(** The elements that the loop writes are read in full at the depth at
    which they start. *)
Lemma foldl_writeExample_scan fileBase element examples self writer warned :
  ∃ tokens,
    (foldl (writeExample fileBase element) (self, writer, warned) examples).1.2
    = writer ++ tokens
    ∧ ∀ depth tag, ∃ tag',
        xmlScan (Body true (S depth) tag) tokens
        = Some (Body true (S depth) tag').
Proof.
  revert self writer warned.
  induction examples as [|example examples IH]; intros self writer warned.
  - exists []. split; [simpl; rewrite app_nil_r; reflexivity|]. eauto.
  - cbn [foldl]. rewrite writeExample_eq. cbv zeta.
    edestruct IH as (tokens & Htokens & Hscan). rewrite Htokens.
    eexists. split; [rewrite <- app_assoc; reflexivity|].
    intros depth tag. rewrite xmlScan_app, xmlScan_element.
    + apply Hscan.
    + rewrite fmap_app. apply newAttributes_NoDup, fixedAttributes_NoDup.
Qed.

Lemma manifestDocument_scan fileBase self manifest element selected :
  xmlScan Prolog (manifestDocument fileBase self manifest element selected)
  = Some Epilog.
Proof.
  unfold manifestDocument.
  edestruct (foldl_writeExample_scan fileBase element selected self)
    as (tokens & Htokens & Hscan).
  rewrite Htokens. rewrite <- app_assoc. cbn [app xmlScan xmlStep].
  simpl. rewrite xmlScan_app.
  destruct (Hscan 1 (Some [])) as [tag' Htag]. rewrite Htag.
  destruct tag'; reflexivity.
Qed.

Lemma existsb_kind demos (examples : list ExampleNode) :
  existsb (fun example => Bool.eqb demos (isDemo example)) examples
  = negb (bool_decide
            (filter (fun example => isDemo example = demos) examples = [])).
Proof.
  induction examples as [|example examples IH]; [reflexivity|].
  cbn [existsb]. rewrite filter_cons.
  destruct (decide (isDemo example = demos)) as [<-|Hne].
  - rewrite Bool.eqb_reflx. reflexivity.
  - rewrite IH. destruct demos, (isDemo example); try congruence; reflexivity.
Qed.

(** X16.  When there is no example of the requested kind, or the output
    file cannot be opened, [generateManifestFile] does nothing: the
    writer object is the same, no file is written and no warning is
    issued. *)
Theorem generateManifestFile_nothing_to_do (fileBase : ExampleNode → string)
    (openForWriting : string → bool) (self : ManifestWriter)
    (manifest element : string) (fx : Effects)
    (Hnothing :
       filter (fun example => isDemo example = String.eqb manifest "demos")
              (exampleNodeMap self) = []
       ∨ openForWriting
           (m_outputDirectory self +:+ "/" +:+ manifest +:+ "-manifest.xml")
         = false) :
  generateManifestFile fileBase openForWriting self manifest element fx
  = (self, fx).
Proof.
  unfold generateManifestFile. case_bool_decide; [reflexivity|].
  rewrite existsb_kind. destruct Hnothing as [Hnone|Hopen].
  - rewrite bool_decide_eq_true_2 by exact Hnone. reflexivity.
  - case_bool_decide; [reflexivity|]. simpl negb. cbv iota.
    rewrite Hopen. reflexivity.
Qed.

Lemma generateManifestFile_nothing_to_do_witness :
  let clocks :=
    {| name := "quick/clocks"; title := "Clocks";
       projectFile := ""; imageFileName := "";
       files := []; briefText := ""; metaTagMap := None |} in
  let self :=
    newManifestWriter
      {| project := "QtQuick"; outputDir := "doc"; qhpNamespace := "org.qt";
         qhpVirtualFolder := "qtquick"; examplesInstallPath := "quick";
         manifestMetaFilters := [] |} [clocks] in
  generateManifestFile name (fun _ => true) self "demos" "demo" noEffects
  = (self, noEffects)
  ∧ generateManifestFile name (fun _ => false) self "examples" "example"
                         noEffects
    = (self, noEffects).
Proof.
  intros clocks self. split.
  - apply generateManifestFile_nothing_to_do. left. reflexivity.
  - apply generateManifestFile_nothing_to_do. right. reflexivity.
Defined.

(** The two ways a call can end. *)
Lemma generateManifestFile_cases fileBase openForWriting self manifest
    element fx :
  generateManifestFile fileBase openForWriting self manifest element fx
  = (self, fx)
  ∨ ∃ ts doc issued,
      generateManifestFile fileBase openForWriting self manifest element fx
      = (set_m_tags self ts,
         {| warnings := warnings fx ++ issued;
            outputs :=
              outputs fx
              ++ [(m_outputDirectory self +:+ "/" +:+ manifest
                   +:+ "-manifest.xml", doc)] |})
      ∧ xmlScan Prolog doc = Some Epilog.
Proof.
  destruct (decide (filter (fun example =>
                              isDemo example = String.eqb manifest "demos")
                           (exampleNodeMap self) = [])) as [Hnone|Hsome].
  { left. unfold generateManifestFile. case_bool_decide; [reflexivity|].
    rewrite existsb_kind, bool_decide_eq_true_2 by exact Hnone. reflexivity. }
  destruct (openForWriting
              (m_outputDirectory self +:+ "/" +:+ manifest +:+ "-manifest.xml"))
    eqn:Hopen.
  - right.
    rewrite (generateManifestFile_eq fileBase openForWriting self manifest
               element fx Hsome Hopen).
    cbv zeta.
    edestruct (foldl_writeExample_self fileBase element self) as [ts Hts].
    rewrite Hts. eexists ts, _, _. split; [reflexivity|].
    apply manifestDocument_scan.
  - left. unfold generateManifestFile. case_bool_decide; [reflexivity|].
    rewrite existsb_kind, bool_decide_eq_false_2 by exact Hsome.
    simpl negb. cbv iota. rewrite Hopen. reflexivity.
Qed.

(** X17.  A call of [generateManifestFile] keeps the outputs and the
    warnings that were there and adds either nothing, or one document
    under "<output directory>/<manifest>-manifest.xml" together with
    the warnings for its examples; and such a document is well formed:
    one root element, every element closed, attributes only in start
    tags and no attribute name twice in a tag. *)
Theorem generateManifestFile_output (fileBase : ExampleNode → string)
    (openForWriting : string → bool) (self : ManifestWriter)
    (manifest element : string) (fx : Effects) :
  let fx' :=
    (generateManifestFile fileBase openForWriting self manifest element fx).2 in
  (fx' = fx)
  ∨ ∃ doc issued,
      outputs fx'
      = outputs fx
        ++ [(m_outputDirectory self +:+ "/" +:+ manifest +:+ "-manifest.xml",
             doc)]
      ∧ warnings fx' = warnings fx ++ issued
      ∧ wellFormedDocument doc = true.
Proof.
  cbv zeta.
  destruct (generateManifestFile_cases fileBase openForWriting self manifest
              element fx) as [Hsame|(ts & doc & issued & Hrun & Hscan)].
  - left. rewrite Hsame. reflexivity.
  - right. exists doc, issued. rewrite Hrun. cbn [snd outputs warnings].
    split; [reflexivity|]. split; [reflexivity|].
    unfold wellFormedDocument. rewrite Hscan. reflexivity.
Qed.

(** The checker does tell documents apart: text before an attribute, an
    attribute name twice, an element left open and a second root are
    all refused. *)
Example wellFormedDocument_refuses :
  wellFormedDocument
    [StartDocument; StartElement "a"; Characters "x"; Attribute "k" "v";
     EndElement; EndDocument] = false
  ∧ wellFormedDocument
      [StartDocument; StartElement "a"; Attribute "k" "v"; Attribute "k" "w";
       EndElement; EndDocument] = false
  ∧ wellFormedDocument [StartDocument; StartElement "a"; EndDocument] = false
  ∧ wellFormedDocument
      [StartDocument; StartElement "a"; EndElement; StartElement "b";
       EndElement; EndDocument] = false
  ∧ wellFormedDocument
      [StartDocument; StartElement "a"; Attribute "k" "v"; EndElement;
       EndDocument] = true.
Proof. repeat split; reflexivity. Qed.

Lemma generateManifestFile_tagsOnly fileBase openForWriting self manifest
    element fx :
  ∃ ts, (generateManifestFile fileBase openForWriting self manifest element
                              fx).1
        = set_m_tags self ts.
Proof.
  destruct (generateManifestFile_cases fileBase openForWriting self manifest
              element fx) as [H|(ts & doc & issued & H & _)]; rewrite H.
  - exists (m_tags self). symmetry. apply set_m_tags_same.
  - eauto.
Qed.

Lemma generateManifestFile_written fileBase openForWriting self manifest
    element fx :
  ∃ written,
    outputs (generateManifestFile fileBase openForWriting self manifest
                                  element fx).2
    = outputs fx ++ written
    ∧ length written ≤ 1
    ∧ ∀ path doc, (path, doc) ∈ written → wellFormedDocument doc = true.
Proof.
  destruct (generateManifestFile_cases fileBase openForWriting self manifest
              element fx) as [H|(ts & doc & issued & H & Hs)]; rewrite H.
  - exists []. rewrite app_nil_r. split; [reflexivity|].
    split; [simpl; lia|]. intros path d Hin. apply elem_of_nil in Hin as [].
  - eexists. split; [reflexivity|]. split; [simpl; lia|].
    intros path d Hin. apply list_elem_of_singleton in Hin as [= _ ->].
    unfold wellFormedDocument. rewrite Hs. reflexivity.
Qed.

Lemma generateManifestFiles_state fileBase openForWriting self fx :
  ∃ ts,
    (generateManifestFiles fileBase openForWriting self fx).1
    = {| m_tags := ts;
         m_manifestDir := m_manifestDir self;
         m_examplesPath := m_examplesPath self;
         m_outputDirectory := m_outputDirectory self;
         m_project := m_project self;
         m_manifestMetaContent := [];
         exampleNodeMap := [] |}.
Proof.
  unfold generateManifestFiles.
  destruct (generateManifestFile_tagsOnly fileBase openForWriting self
              "examples" "example" fx) as [ts1 H1].
  destruct (generateManifestFile fileBase openForWriting self
              "examples" "example" fx) as [self1 fx1].
  cbn [fst] in H1. subst self1.
  destruct (generateManifestFile_tagsOnly fileBase openForWriting
              (set_m_tags self ts1) "demos" "demo" fx1) as [ts2 H2].
  destruct (generateManifestFile fileBase openForWriting
              (set_m_tags self ts1) "demos" "demo" fx1) as [self2 fx2].
  cbn [fst] in H2. subst self2. exists ts2. reflexivity.
Qed.

Lemma generateManifestFiles_nothing fileBase openForWriting self fx :
  exampleNodeMap self = [] → m_manifestMetaContent self = [] →
  generateManifestFiles fileBase openForWriting self fx = (self, fx).
Proof.
  intros Hnodes Hrules. unfold generateManifestFiles, generateManifestFile.
  rewrite !bool_decide_eq_true_2 by exact Hnodes.
  destruct self. simpl in *. subst. reflexivity.
Qed.

Lemma generateManifestFiles_written fileBase openForWriting self fx :
  ∃ written,
    outputs (generateManifestFiles fileBase openForWriting self fx).2
    = outputs fx ++ written
    ∧ length written ≤ 2
    ∧ ∀ path doc, (path, doc) ∈ written → wellFormedDocument doc = true.
Proof.
  unfold generateManifestFiles.
  destruct (generateManifestFile_written fileBase openForWriting self
              "examples" "example" fx) as (w1 & Ho1 & Hl1 & Hw1).
  destruct (generateManifestFile fileBase openForWriting self
              "examples" "example" fx) as [self1 fx1].
  cbn [snd] in Ho1.
  destruct (generateManifestFile_written fileBase openForWriting self1
              "demos" "demo" fx1) as (w2 & Ho2 & Hl2 & Hw2).
  destruct (generateManifestFile fileBase openForWriting self1
              "demos" "demo" fx1) as [self2 fx2].
  cbn [snd] in *. exists (w1 ++ w2). rewrite Ho2, Ho1, <- app_assoc.
  split; [reflexivity|]. split; [rewrite length_app; lia|].
  intros path doc Hin. apply elem_of_app in Hin as [Hin|Hin]; eauto.
Qed.

(** X18.  [generateManifestFiles] leaves the writer object without
    examples and without filter rules, and with its project, its
    directories and its examples path as they were; so a second call
    does nothing at all.  What the first call writes is at most two
    documents, each of them well formed. *)
Theorem generateManifestFiles_once (fileBase : ExampleNode → string)
    (openForWriting : string → bool) (self : ManifestWriter)
    (fx fx' : Effects) :
  let run := generateManifestFiles fileBase openForWriting self fx in
  exampleNodeMap run.1 = []
  ∧ m_manifestMetaContent run.1 = []
  ∧ (m_project run.1, m_outputDirectory run.1, m_manifestDir run.1,
     m_examplesPath run.1)
    = (m_project self, m_outputDirectory self, m_manifestDir self,
       m_examplesPath self)
  ∧ generateManifestFiles fileBase openForWriting run.1 fx' = (run.1, fx')
  ∧ ∃ written,
      outputs run.2 = outputs fx ++ written
      ∧ length written ≤ 2
      ∧ ∀ path doc, (path, doc) ∈ written → wellFormedDocument doc = true.
Proof.
  cbv zeta.
  destruct (generateManifestFiles_state fileBase openForWriting self fx)
    as [ts Hstate].
  split; [rewrite Hstate; reflexivity|].
  split; [rewrite Hstate; reflexivity|].
  split; [rewrite Hstate; reflexivity|].
  split; [|apply generateManifestFiles_written].
  apply generateManifestFiles_nothing; rewrite Hstate; reflexivity.
Qed.

(** ** Where the tags of an example come from *)

Lemma addWords_loop_frame fuel project pos tags :
  addWords_loop fuel project pos tags
  = (fun words => tags ∪ words) <$> addWords_loop fuel project pos ∅.
Proof.
  revert pos tags. induction fuel as [|fuel IH]; intros pos tags; simpl.
  - reflexivity.
  - destruct (QRegularExpression.match_ moduleWord project pos) as [range|].
    + rewrite IH, (IH _ (∅ ∪ _)).
      destruct (addWords_loop fuel project range.2 ∅) as [words|]; simpl;
        [|reflexivity].
      f_equal. rewrite (left_id_L ∅ (∪)), (assoc_L (∪)). reflexivity.
    + simpl. rewrite (right_id_L ∅ (∪)). reflexivity.
Qed.

Lemma addWords_tags self :
  m_tags (addWordsFromModuleNamesAsTags self)
  = m_tags self ∪ moduleWords (m_project self).
Proof.
  unfold addWordsFromModuleNamesAsTags, moduleWords.
  rewrite addWords_loop_frame.
  destruct (addWords_loop_total (m_project self) ∅) as [words Hwords].
  rewrite Hwords. reflexivity.
Qed.

Lemma includeTags_tags self example :
  m_tags (includeTagsAddedWithMetaCommand self (Some example))
  = m_tags self ∪ metaTags example.
Proof.
  unfold includeTagsAddedWithMetaCommand, metaTags.
  destruct (metaTagMap example) as [m|];
    [|rewrite (right_id_L ∅ (∪)); reflexivity].
  generalize (multiMapValues "tag" m). intros l. revert self.
  induction l as [|tag l IH]; intros self.
  - simpl. rewrite (right_id_L ∅ (∪)). reflexivity.
  - cbn [foldl]. rewrite IH, m_tags_set_m_tags.
    rewrite fmap_cons. cbn [union_list foldr].
    rewrite (assoc_L (∪)). reflexivity.
Qed.

(** X19.  The tag set that the cleanup leaves for an example is the
    cleanup of everything that was gathered: the tags that were in the
    set, the tags of the matching rules, the words of the module name,
    the meta tags and the title words.  The steps before the cleanup
    only gather, so their order has no influence. *)
Theorem example_tag_sources (self : ManifestWriter) (example : ExampleNode)
    (fullName : string) (usedAttributes : list string)
    (writer : QXmlStreamWriter) :
  let self1 :=
    (processManifestMetaContent self fullName (Some usedAttributes)
                                (Some writer)).1.1 in
  let self2 := addWordsFromModuleNamesAsTags self1 in
  let self3 := includeTagsAddedWithMetaCommand self2 (Some example) in
  let self4 := addTitleWordsToTags self3 (Some example) in
  m_tags (cleanUpTags self4)
  = set_omap cleanUpTag
      (m_tags self ∪ appliedTags fullName (m_manifestMetaContent self)
       ∪ moduleWords (m_project self) ∪ metaTags example
       ∪ titleWords example).
Proof.
  cbv zeta. unfold cleanUpTags. rewrite m_tags_set_m_tags. f_equal.
  unfold addTitleWordsToTags. rewrite m_tags_set_m_tags.
  rewrite includeTags_tags, addWords_tags.
  rewrite processManifestMetaContent_eq. cbv zeta. cbn [fst].
  rewrite m_tags_set_m_tags. reflexivity.
Qed.

(** The tags of an example of a module with one matching rule: "qt",
    "example" and the one-letter word do not survive. *)
Example example_tags_sample :
  let clocks :=
    {| name := "quick/clocks"; title := "Clocks Example A";
       projectFile := "clocks.pro"; imageFileName := "";
       files := []; briefText := "";
       metaTagMap := Some [("tag", "Time,QML"); ("installpath", "x")] |} in
  let self :=
    newManifestWriter
      {| project := "QtQuick"; outputDir := "doc"; qhpNamespace := "org.qt";
         qhpVirtualFolder := "qtquick"; examplesInstallPath := "quick";
         manifestMetaFilters :=
           [ {| names := ["*"]; attributes := [];
                tags := {[ "android" ]} |} ] |} [clocks] in
  exampleTags self clocks = {[ "android"; "quick"; "time"; "qml"; "clocks" ]}.
Proof. vm_compute. reflexivity. Qed.

(** ** The name an example is ranked by *)

Lemma rev_involutive s : String.rev (String.rev s) = s.
Proof.
  induction s as [|c s IH]; [reflexivity|].
  change (String c s) with (String c "" +:+ s) at 1.
  rewrite rev_append, rev_append, IH. reflexivity.
Qed.

Lemma endsWith_split s suffix :
  QString.endsWith s suffix = true → ∃ front, s = front +:+ suffix.
Proof.
  unfold QString.endsWith. intros H.
  apply (startsWith_iff (String.rev s) (String.rev suffix)) in H
    as [rest Hrest].
  exists (String.rev rest).
  rewrite <- (rev_involutive s), Hrest, rev_append, rev_involutive.
  reflexivity.
Qed.

Lemma lastIndexOf_absent ch s :
  QString.contains ch s = false → QString.lastIndexOf ch s = (-1)%Z.
Proof.
  induction s as [|c s IH]; simpl; [reflexivity|].
  destruct (Ascii.eqb c ch); simpl; [discriminate|].
  intros H. rewrite (IH H). reflexivity.
Qed.

Lemma lastIndexOf_ge ch s : (-1 <= QString.lastIndexOf ch s)%Z.
Proof.
  induction s as [|c s IH]; simpl; [lia|].
  destruct (Z.leb_spec 0 (QString.lastIndexOf ch s)); [lia|].
  destruct (Ascii.eqb c ch); lia.
Qed.

(** The last occurrence in a concatenation is the last one in the
    second part, when there is one, and else the last one in the
    first. *)
Lemma lastIndexOf_app ch front back :
  QString.lastIndexOf ch (front +:+ back)
  = if (0 <=? QString.lastIndexOf ch back)%Z
    then (Z.of_nat (String.length front) + QString.lastIndexOf ch back)%Z
    else QString.lastIndexOf ch front.
Proof.
  induction front as [|c front IH].
  - change ("" +:+ back) with back.
    pose proof (lastIndexOf_ge ch back).
    destruct (Z.leb_spec 0 (QString.lastIndexOf ch back)); simpl; lia.
  - change (String c front +:+ back) with (String c (front +:+ back)).
    cbn [QString.lastIndexOf]. rewrite IH.
    pose proof (lastIndexOf_ge ch front).
    destruct (Z.leb_spec 0 (QString.lastIndexOf ch back)).
    + destruct (Z.leb_spec 0 (Z.of_nat (String.length front)
                              + QString.lastIndexOf ch back)); simpl; lia.
    + reflexivity.
Qed.

Lemma skip_app_length front back :
  QString.skip (String.length front) (front +:+ back) = back.
Proof.
  induction front as [|c front IH]; [destruct back; reflexivity|exact IH].
Qed.

(** Cutting a name after its last separator gives the part that
    follows the path. *)
Lemma mid_last_segment ch path segment :
  QString.contains ch segment = false →
  path = "" ∨ QString.endsWith path (String ch "") = true →
  QString.mid (QString.lastIndexOf ch (path +:+ segment) + 1)
              (path +:+ segment)
  = segment.
Proof.
  intros Hsegment Hpath. unfold QString.mid.
  rewrite lastIndexOf_app, (lastIndexOf_absent _ _ Hsegment).
  change (0 <=? -1)%Z with false. cbv iota. destruct Hpath as [->|Hends].
  - reflexivity.
  - apply endsWith_split in Hends as [front ->].
    rewrite lastIndexOf_app. simpl QString.lastIndexOf.
    rewrite Ascii.eqb_refl. change (0 <=? 0)%Z with true. cbv iota.
    replace (Z.to_nat (Z.of_nat (String.length front) + 0 + 1))
      with (String.length (front +:+ String ch ""))
      by (rewrite string_app_length; simpl; lia).
    apply skip_app_length.
Qed.

(** X20.  The files of an example are ranked by the last segment of
    its name: for an example whose name is a path, empty or ending
    with a slash, followed by a segment without a slash, the element
    that [generateManifestFile] writes ends with the fileToOpen blocks
    of the ranking of its files against that segment. *)
Theorem files_ranked_by_last_segment (fileBase : ExampleNode → string)
    (element : string) (self : ManifestWriter) (writer : QXmlStreamWriter)
    (warned : list string) (example : ExampleNode) (path segment : string)
    (Hname : name example = path +:+ segment)
    (Hsegment : QString.contains "/" segment = false)
    (Hpath : path = "" ∨ QString.endsWith path "/" = true) :
  ∃ before,
    (writeExample fileBase element (self, writer, warned) example).1.2
    = before
      ++ writeFilesToOpen []
           (retrieveExampleInstallationPath self example)
           (getFilesToOpen (files example) segment)
      ++ [EndElement].
Proof.
  rewrite writeExample_eq. cbv zeta. cbn [fst snd].
  rewrite Hname, (mid_last_segment "/" path segment Hsegment Hpath).
  eexists. rewrite !(assoc_L (++)). reflexivity.
Qed.

Lemma files_ranked_by_last_segment_witness :
  let clocks :=
    {| name := "quick/demos/clocks"; title := "Clocks";
       projectFile := ""; imageFileName := "";
       files := ["clocks/Clocks.qml"; "clocks/demos.cpp"];
       briefText := ""; metaTagMap := None |} in
  let self :=
    newManifestWriter
      {| project := "QtQuick"; outputDir := "doc"; qhpNamespace := "org.qt";
         qhpVirtualFolder := "qtquick"; examplesInstallPath := "quick";
         manifestMetaFilters := [] |} [clocks] in
  ∃ before,
    (writeExample name "example" (self, [], []) clocks).1.2
    = before
      ++ writeFilesToOpen [] "quick/"
           (getFilesToOpen ["clocks/Clocks.qml"; "clocks/demos.cpp"] "clocks")
      ++ [EndElement].
Proof.
  intros clocks self.
  exact (files_ranked_by_last_segment name "example" self [] [] clocks
           "quick/demos/" "clocks" eq_refl eq_refl (or_intror eq_refl)).
Defined.
